(** * ExpressionInput: the Prometheus metadata client and the history
      completion strategy

    A shallow embedding of
    [pkg/ui/react-app/src/pages/graph/ExpressionInput.tsx]:
    the class [CustomHTTPPrometheusClient] and the class
    [HistoryCompleteStrategy].

    Promises are modelled by their settled state, the world that the client
    acts on (wall clock, transport, error callback) by an explicit state with
    a trace of events, and the functions of the browser and of
    codemirror-promql that the file calls by a type class.

    The operations of the client come twice. The first definitions take a
    call of the error callback to return and the dates of the window to be
    valid; module [Full] has the operations with a callback that can throw
    and dates that can be invalid, and [operations_agree] relates the two. *)

From Stdlib Require Import String Ascii List ZArith NArith Bool Lia ListSet.
Import ListNotations.
Open Scope string_scope.

(** ** Promises *)

(** A thrown value or rejection reason: [new Error(message)]. *)
Record JsError := mkError { message : string }.

(** A promise, by the state it settles in. *)
Inductive Promise (A : Type) : Type :=
| Resolved (a : A)
| Rejected (e : JsError).
Arguments Resolved {A} a.
Arguments Rejected {A} e.

(** ** Data of the metadata client *)

Definition badRequest : Z := 400.
Definition unprocessableEntity : Z := 422.
Definition serviceUnavailable : Z := 503.

Inductive Status := success | error.

(** [interface APIResponse<T>] *)
Record APIResponse (T : Type) := mkAPIResponse {
  status : Status;
  data : option T;
  error_ : option string;
  warnings : option (list string)
}.
Arguments mkAPIResponse {T}.
Arguments status {T}.
Arguments data {T}.
Arguments error_ {T}.
Arguments warnings {T}.

Inductive HTTPMethod := POST | GET.

(** [URLSearchParams]: the name/value pairs in insertion order. *)
Definition URLSearchParams := list (string * string).
Definition Headers := list (string * string).

(** The [RequestInit] objects the client builds: [method] and [body] are left
    out by some calls, and a [body] can be [null]. *)
Record RequestInit := mkInit {
  method : option HTTPMethod;
  body : option URLSearchParams;
  headers : Headers
}.

(** The part of a [Response] that [fetchAPI] reads; [json] is the promise
    returned by [res.json()]. *)
Record Response (T : Type) := mkResponse {
  ok : bool;
  res_status : Z;
  statusText : string;
  json : Promise (APIResponse T)
}.
Arguments mkResponse {T}.
Arguments ok {T}.
Arguments res_status {T}.
Arguments statusText {T}.
Arguments json {T}.

(** A series record as [Object.entries] enumerates it. *)
Definition LabelSet := list (string * string).

Record MetricMetadata := mkMetricMetadata { type_ : string; help : string }.

(** The type arguments at which [fetchAPI<T>] is called. The cast of the
    parsed body to [APIResponse<T>] is unchecked in the source; the transport
    is trusted to answer at the type asked for. *)
Inductive Shape := Strings | SeriesList | Metadata | Flags.

Definition El (s : Shape) : Type :=
  match s with
  | Strings => list string
  | SeriesList => list LabelSet
  | Metadata => list (string * list MetricMetadata)
  | Flags => list (string * string)
  end.

(** [FetchFn]: [(input, init) => Promise<Response>]. *)
Definition FetchFn := forall s : Shape, string -> RequestInit -> Promise (Response (El s)).

Inductive MatchType := EqlSingle | Neq | EqlRegex | NeqRegex.

(** [Matcher] of codemirror-promql. *)
Record Matcher := mkMatcher { m_type : MatchType; m_name : string; m_value : string }.

(** The error callback, [(error) => void]. It is opaque to the client: all
    the client does is call it. A call is recorded in the trace and
    returns. *)
Inductive ErrorHandler := handler (name : string).

(** [PrometheusConfig], the fields the constructor reads. *)
Record PrometheusConfig := mkConfig {
  cfg_url : option string;
  cfg_lookbackInterval : option Z;
  cfg_httpErrorHandler : option ErrorHandler;
  cfg_fetchFn : option FetchFn;
  cfg_httpMethod : option HTTPMethod;
  cfg_apiPrefix : option string
}.

(** ** The world *)

Inductive Event :=
| Fetched (input : string) (init : RequestInit)
| Notified (h : ErrorHandler) (e : JsError).

(** [reads] counts the readings of the wall clock so far. *)
Record World := mkWorld { reads : nat; events : list Event }.

(** Functions of the platform and of codemirror-promql that the file calls. *)
Class Platform := {
  (** the time value of the [k]-th [new Date()] *)
  wallClock : nat -> Z;
  (** [Date.prototype.toISOString], on the time values that have one *)
  toISOString : Z -> string;
  (** [URLSearchParams.prototype.toString] *)
  paramsToString : URLSearchParams -> string;
  (** [s.replace(/:name/gi, r)] *)
  replaceName : string -> string -> string;
  labelMatchersToString : string -> option (list Matcher) -> option string -> string;
  (** the global [fetch] *)
  fetch : FetchFn
}.

(** ** The promise chain with its effects *)

Definition Async (A : Type) : Type := World -> Promise A * World.

Definition resolve {A} (a : A) : Async A := fun w => (Resolved a, w).
Definition throw {A} (e : JsError) : Async A := fun w => (Rejected e, w).
Definition settled {A} (p : Promise A) : Async A := fun w => (p, w).

(** [p.then(f)] *)
Definition then_ {A B} (p : Async A) (f : A -> Async B) : Async B :=
  fun w =>
    match p w with
    | (Resolved a, w') => f a w'
    | (Rejected e, w') => (Rejected e, w')
    end.

(** [p.catch(f)] *)
Definition catch_ {A} (p : Async A) (f : JsError -> Async A) : Async A :=
  fun w =>
    match p w with
    | (Resolved a, w') => (Resolved a, w')
    | (Rejected e, w') => f e w'
    end.

Notation "x <- p ;; k" := (then_ p (fun x => k))
  (at level 61, p at next level, right associativity).

(** [new Date()] *)
Definition newDate `{Platform} : World -> Z * World :=
  fun w => (wallClock (reads w), mkWorld (S (reads w)) (events w)).

Definition record (ev : Event) : World -> World :=
  fun w => mkWorld (reads w) (events w ++ [ev]).

(** ** CustomHTTPPrometheusClient *)

Record CustomHTTPPrometheusClient := mkClient {
  lookbackInterval : Z;
  url : string;
  errorHandler : option ErrorHandler;
  httpMethod : HTTPMethod;
  apiPrefix : string;
  fetchFn : FetchFn;
  requestHeaders : Headers
}.

Definition truthy_string (s : option string) : option string :=
  match s with
  | Some "" => None
  | other => other
  end.

Definition truthy_number (n : option Z) : option Z :=
  match n with
  | Some 0%Z => None
  | other => other
  end.

(** [constructor(config: PrometheusConfig)] *)
Definition newClient `{Platform} (config : PrometheusConfig) : CustomHTTPPrometheusClient :=
  {| lookbackInterval :=
       match truthy_number (cfg_lookbackInterval config) with
       | Some n => n
       | None => (60 * 60 * 1000 * 12)%Z
       end;
     url := match truthy_string (cfg_url config) with Some u => u | None => "" end;
     errorHandler := cfg_httpErrorHandler config;
     httpMethod := match cfg_httpMethod config with Some m => m | None => POST end;
     apiPrefix := match truthy_string (cfg_apiPrefix config) with Some p => p | None => "/api/v1" end;
     fetchFn := match cfg_fetchFn config with Some f => f | None => fetch end;
     requestHeaders := [] |}.

Section Client.
Context `{Platform}.
Variable this : CustomHTTPPrometheusClient.

Definition labelsEndpoint : string := apiPrefix this ++ "/labels".
Definition labelValuesEndpoint : string := apiPrefix this ++ "/label/:name/values".
Definition seriesEndpoint : string := apiPrefix this ++ "/series".
Definition metricMetadataEndpoint : string := apiPrefix this ++ "/metadata".
Definition flagsEndpoint : string := apiPrefix this ++ "/status/flags".

(** [buildRequest(endpoint, params)]: the pair [{ uri, body }]. *)
Definition buildRequest (endpoint : string) (params : URLSearchParams)
  : string * option URLSearchParams :=
  match httpMethod this with
  | GET => (endpoint ++ "?" ++ paramsToString params, None)
  | POST => (endpoint, Some params)
  end.

(** [this.fetchFn(input, init)]: the call is recorded, the answer is the
    transport's. *)
Definition callFetch (s : Shape) (input : string) (init : RequestInit)
  : Async (Response (El s)) :=
  fun w => (fetchFn this s input init, record (Fetched input init) w).

Definition includes (xs : list Z) (x : Z) : bool := existsb (Z.eqb x) xs.

Definition quote : string := String (ascii_of_nat 34) EmptyString.

Definition missingErrorField : string :=
  "missing " ++ quote ++ "error" ++ quote ++ " field in response JSON".
Definition missingDataField : string :=
  "missing " ++ quote ++ "data" ++ quote ++ " field in response JSON".

(** The three [then] callbacks of [fetchAPI]. *)
Definition checkStatus {T} (res : Response T) : Async (Response T) :=
  if negb (ok res)
     && negb (includes [badRequest; unprocessableEntity; serviceUnavailable] (res_status res))
  then throw (mkError (statusText res))
  else resolve res.

Definition parseBody {T} (res : Response T) : Async (APIResponse T) :=
  settled (json res).

Definition unwrap {T} (apiRes : APIResponse T) : Async T :=
  match status apiRes with
  | error =>
      throw (mkError (match error_ apiRes with
                      | Some e => e
                      | None => missingErrorField
                      end))
  | success =>
      match data apiRes with
      | None => throw (mkError missingDataField)
      | Some d => resolve d
      end
  end.

(** [fetchAPI<T>(resource, init)] *)
Definition fetchAPI (s : Shape) (resource : string) (init : RequestInit) : Async (El s) :=
  res <- callFetch s (url this ++ resource) init ;;
  res <- checkStatus res ;;
  apiRes <- parseBody res ;;
  unwrap apiRes.

(** The [catch] callback that every operation installs:
    [(error) => { if (this.errorHandler) { this.errorHandler(error); } return dflt; }] *)
Definition onRejected {A} (dflt : A) (err : JsError) : Async A :=
  fun w =>
    (Resolved dflt,
     match errorHandler this with
     | Some h => record (Notified h err) w
     | None => w
     end).

(** [series(metricName, matchers, labelName)] *)
Definition series (metricName : string) (matchers : option (list Matcher))
    (labelName : option string) : Async (list LabelSet) :=
  fun w =>
    let (end_, w) := newDate w in
    let start := (end_ - lookbackInterval this)%Z in
    let request :=
      buildRequest seriesEndpoint
        [("start", toISOString start);
         ("end", toISOString end_);
         ("match[]", labelMatchersToString metricName matchers labelName)] in
    catch_
      (fetchAPI SeriesList (fst request)
         (mkInit (Some (httpMethod this)) (snd request) (requestHeaders this)))
      (onRejected []) w.

(** The loops of [labelNames] over the series; the [Set] keeps insertion
    order, as [set_add] does. *)
Definition addNames (acc : list string) (labelSet : LabelSet) : list string :=
  fold_left
    (fun acc kv =>
       if String.eqb (fst kv) "__name__" then acc
       else set_add string_dec (fst kv) acc)
    labelSet acc.

Definition collectNames (series : list LabelSet) : list string :=
  fold_left addNames series [].

(** [labelNames(metricName)] *)
Definition labelNames (metricName : option string) : Async (list string) :=
  fun w =>
    let (end_, w) := newDate w in
    let start := (end_ - lookbackInterval this)%Z in
    let direct :=
      let request :=
        buildRequest labelsEndpoint
          [("start", toISOString start); ("end", toISOString end_)] in
      catch_
        (fetchAPI Strings (fst request)
           (mkInit (Some (httpMethod this)) (snd request) (requestHeaders this)))
        (onRejected []) in
    match metricName with
    | None => direct w
    | Some "" => direct w
    | Some metricName =>
        (series_ <- series metricName None None ;;
         resolve (collectNames series_)) w
    end.

(** The loops of [labelValues] over the series. *)
Definition addValues (labelName : string) (acc : list string) (labelSet : LabelSet)
  : list string :=
  fold_left
    (fun acc kv =>
       if String.eqb (fst kv) "__name__" then acc
       else if String.eqb (fst kv) labelName then set_add string_dec (snd kv) acc
       else acc)
    labelSet acc.

Definition collectValues (labelName : string) (series : list LabelSet) : list string :=
  fold_left (addValues labelName) series [].

(** [labelValues(labelName, metricName, matchers)] *)
Definition labelValues (labelName : string) (metricName : option string)
    (matchers : option (list Matcher)) : Async (list string) :=
  fun w =>
    let (end_, w) := newDate w in
    let start := (end_ - lookbackInterval this)%Z in
    let direct :=
      let params : URLSearchParams :=
        [("start", toISOString start); ("end", toISOString end_)] in
      catch_
        (fetchAPI Strings
           (replaceName labelValuesEndpoint labelName ++ "?" ++ paramsToString params)
           (mkInit None None (requestHeaders this)))
        (onRejected []) in
    match metricName with
    | None => direct w
    | Some "" => direct w
    | Some metricName =>
        (series_ <- series metricName matchers (Some labelName) ;;
         resolve (collectValues labelName series_)) w
    end.

(** [metricMetadata()] *)
Definition metricMetadata : Async (list (string * list MetricMetadata)) :=
  catch_
    (fetchAPI Metadata metricMetadataEndpoint (mkInit None None (requestHeaders this)))
    (onRejected []).

(** [metricNames()] *)
Definition metricNames : Async (list string) :=
  labelValues "__name__" None None.

(** [flags()] *)
Definition flags : Async (list (string * string)) :=
  catch_
    (fetchAPI Flags flagsEndpoint (mkInit None None (requestHeaders this)))
    (onRejected []).

End Client.

(** ** HistoryCompleteStrategy *)

(** A JavaScript string is a sequence of UTF-16 code units: [length] counts
    them and [slice] cuts between them. *)
Definition jsstring := list N.

(** The code units of a string of ASCII characters. *)
Definition utf16 (s : string) : jsstring := map N_of_ascii (list_ascii_of_string s).

(** [s.slice(0, n)] for [n >= 0] *)
Definition slice0 (n : nat) (s : jsstring) : jsstring := firstn n s.

(** [Completion] of @codemirror/autocomplete. *)
Record Completion := mkCompletion {
  label : jsstring;
  detail : option jsstring;
  apply : option jsstring;
  info : option jsstring;
  type : option jsstring;
  boost : option Z
}.

(** [CompletionResult] of @codemirror/autocomplete; [validFor] by the texts
    it accepts. *)
Record CompletionResult := mkResult {
  from : nat;
  to : option nat;
  options : list Completion;
  validFor : option (jsstring -> bool);
  filter : option bool
}.

Record EditorState := mkState { doc : jsstring }.

(** [CompletionContext], the fields the strategy reads. *)
Record CompletionContext := mkContext { state : EditorState; pos : nat }.

(** What a call can do: throw, or return a value. *)
Inductive Completed (A : Type) : Type :=
| Throws (e : JsError)
| Returns (a : A).
Arguments Throws {A} e.
Arguments Returns {A} a.

(** [interface CompleteStrategy]: a result returned without a promise is its
    own resolved promise, as under [Promise.resolve]; [null] is [None]. *)
Record CompleteStrategy := mkStrategy {
  promQL : CompletionContext -> Completed (Promise (option CompletionResult))
}.

(** The parser of @codemirror/language. *)
Class Editor := {
  (** [syntaxTree(state).resolve(pos, -1).from] *)
  resolveFrom : EditorState -> nat -> nat
}.

Record HistoryCompleteStrategy := mkHistory {
  complete : CompleteStrategy;
  queryHistory : list jsstring
}.

(** The character class [[a-zA-Z0-9_:]]. *)
Definition tokenChar (c : N) : bool :=
  ((97 <=? c) && (c <=? 122) || (65 <=? c) && (c <=? 90) || (48 <=? c) && (c <=? 57)
   || (c =? 95) || (c =? 58))%N.

(** [/^[a-zA-Z0-9_:]+$/.test(text)] *)
Definition historyValidFor (text : jsstring) : bool :=
  match text with
  | [] => false
  | _ => forallb tokenChar text
  end.

(** The option built for the past query [q]. *)
Definition historyItem (q : jsstring) : Completion :=
  {| label := if (length q <? 80)%nat then q else (slice0 76 q ++ utf16 "...")%list;
     detail := Some (utf16 "past query");
     apply := Some q;
     info := if (length q <? 80)%nat then None else Some q;
     type := None;
     boost := None |}.

(** [res != null ? res.from : tree.from] *)
Definition startOffset `{Editor} (context : CompletionContext)
    (res : option CompletionResult) : nat :=
  let tree_from := resolveFrom (state context) (pos context) in
  match res with
  | Some r => from r
  | None => tree_from
  end.

(** The [then] callback of [HistoryCompleteStrategy.promQL]. *)
Definition enrich `{Editor} (this : HistoryCompleteStrategy) (context : CompletionContext)
    (res : option CompletionResult) : Promise (option CompletionResult) :=
  let start := startOffset context res in
  if negb (start =? 0)%nat then Resolved res
  else
    let historyItems :=
      {| from := start;
         to := Some (pos context);
         options := map historyItem (queryHistory this);
         validFor := Some historyValidFor;
         filter := None |} in
    Resolved
      (Some
         match res with
         | Some r =>
             {| from := from historyItems;
                to := to historyItems;
                options := (options historyItems ++ options r)%list;
                validFor := validFor historyItems;
                filter := filter historyItems |}
         | None => historyItems
         end).

(** [HistoryCompleteStrategy.promQL(context)] *)
Definition history_promQL `{Editor} (this : HistoryCompleteStrategy)
    (context : CompletionContext) : Completed (Promise (option CompletionResult)) :=
  match promQL (complete this) context with
  | Throws e => Throws e
  | Returns (Rejected e) => Returns (Rejected e)
  | Returns (Resolved res) => Returns (enrich this context res)
  end.

(** [HistoryCompleteStrategy implements CompleteStrategy] *)
Definition asStrategy `{Editor} (this : HistoryCompleteStrategy) : CompleteStrategy :=
  {| promQL := history_promQL this |}.

(** ** A platform to run the model on

    The functions of [Platform] for concrete runs: ISO-8601 printing of a time
    value, the application/x-www-form-urlencoded serializer over the bytes of
    a string, replacement of [:name], the selector printer of
    codemirror-promql, a clock that advances by one millisecond per reading
    and a network that is down. *)

Definition digit (d : Z) : string := String (ascii_of_nat (48 + Z.to_nat d)) EmptyString.

(** The last [width] decimal digits of [n], most significant first. *)
Fixpoint digits (width : nat) (n : Z) : string :=
  match width with
  | O => EmptyString
  | S k => digits k (n / 10) ++ digit (n mod 10)
  end.

(** Year, month and day of the day number [days] counted from 1970-01-01. *)
Definition civil (days : Z) : Z * Z * Z :=
  let z := (days + 719468)%Z in
  let era := (z / 146097)%Z in
  let doe := (z - era * 146097)%Z in
  let yoe := ((doe - doe / 1460 + doe / 36524 - doe / 146096) / 365)%Z in
  let doy := (doe - (365 * yoe + yoe / 4 - yoe / 100))%Z in
  let mp := ((5 * doy + 2) / 153)%Z in
  let d := (doy - (153 * mp + 2) / 5 + 1)%Z in
  let m := (if mp <? 10 then mp + 3 else mp - 9)%Z in
  let y := (yoe + era * 400 + (if m <=? 2 then 1 else 0))%Z in
  (y, m, d).

Definition isoString (t : Z) : string :=
  let '(y, m, d) := civil (t / 86400000) in
  let ms := (t mod 86400000)%Z in
  let year :=
    if ((0 <=? y) && (y <=? 9999))%Z then digits 4 y
    else (if (y <? 0)%Z then "-" else "+") ++ digits 6 (Z.abs y) in
  year ++ "-" ++ digits 2 m ++ "-" ++ digits 2 d
  ++ "T" ++ digits 2 (ms / 3600000) ++ ":" ++ digits 2 (ms / 60000 mod 60)
  ++ ":" ++ digits 2 (ms / 1000 mod 60) ++ "." ++ digits 3 (ms mod 1000) ++ "Z".

Definition hexDigit (n : nat) : string :=
  String (ascii_of_nat (if (n <? 10)%nat then 48 + n else 55 + n)) EmptyString.

Definition formEncodeByte (c : ascii) : string :=
  let n := nat_of_ascii c in
  if ((48 <=? n) && (n <=? 57) || (65 <=? n) && (n <=? 90) || (97 <=? n) && (n <=? 122)
      || (n =? 42) || (n =? 45) || (n =? 46) || (n =? 95))%nat
  then String c EmptyString
  else if (n =? 32)%nat then "+"
  else "%" ++ hexDigit (n / 16) ++ hexDigit (n mod 16).

Fixpoint formEncode (s : string) : string :=
  match s with
  | EmptyString => EmptyString
  | String c rest => formEncodeByte c ++ formEncode rest
  end.

Fixpoint formSerialize (params : URLSearchParams) : string :=
  match params with
  | [] => EmptyString
  | [(k, v)] => formEncode k ++ "=" ++ formEncode v
  | (k, v) :: rest => formEncode k ++ "=" ++ formEncode v ++ "&" ++ formSerialize rest
  end.

Definition lower (c : ascii) : ascii :=
  let n := nat_of_ascii c in
  if ((65 <=? n) && (n <=? 90))%nat then ascii_of_nat (n + 32) else c.

Fixpoint startsWithNoCase (pattern s : string) : bool :=
  match pattern, s with
  | EmptyString, _ => true
  | String p pattern', String c s' => Ascii.eqb (lower p) (lower c) && startsWithNoCase pattern' s'
  | String _ _, EmptyString => false
  end.

(** Every occurrence of [:name], in any case, replaced by the text [r]; [skip]
    counts the characters of a match still to drop. *)
Fixpoint replaceAll (skip : nat) (r s : string) : string :=
  match s with
  | EmptyString => EmptyString
  | String c rest =>
      match skip with
      | S k => replaceAll k r rest
      | O =>
          if startsWithNoCase ":name" s then r ++ replaceAll 4 r rest
          else String c (replaceAll 0 r rest)
      end
  end.

Definition matchTypeToString (t : MatchType) : string :=
  match t with
  | EqlSingle => "="
  | Neq => "!="
  | EqlRegex => "=~"
  | NeqRegex => "!~"
  end.

Definition selector (metricName : string) (matchers : option (list Matcher))
    (labelName : option string) : string :=
  match matchers with
  | None => metricName
  | Some [] => metricName
  | Some ms =>
      let skipped (m : Matcher) :=
        match labelName with
        | Some l => String.eqb (m_name m) l
        | None => false
        end || String.eqb (m_value m) "" in
      let shown :=
        map (fun m => m_name m ++ matchTypeToString (m_type m)
                      ++ String (ascii_of_nat 34) (m_value m)
                      ++ String (ascii_of_nat 34) EmptyString)
          (List.filter (fun m => negb (skipped m)) ms) in
      metricName ++ "{" ++ String.concat "," shown ++ "}"
  end.

Definition networkDown : FetchFn :=
  fun _ _ _ => Rejected (mkError "Failed to fetch").

Definition samplePlatform : Platform :=
  {| wallClock := fun k => (1700000000000 + Z.of_nat k)%Z;
     toISOString := isoString;
     paramsToString := formSerialize;
     replaceName := fun s r => replaceAll 0 r s;
     labelMatchersToString := selector;
     fetch := networkDown |}.

Definition sampleEditor : Editor := {| resolveFrom := fun _ _ => 0 |}.

(** Transports for concrete runs. *)

Definition seriesUp : list LabelSet :=
  [[("__name__", "up"); ("job", "api"); ("instance", "a:9090")];
   [("__name__", "up"); ("job", "web"); ("instance", "a:9090")]].

Definition okResponse {T} (d : T) : Response T :=
  mkResponse true 200 "OK" (Resolved (mkAPIResponse success (Some d) None None)).

Definition healthy : FetchFn :=
  fun s _ _ =>
    Resolved
      (match s return Response (El s) with
       | Strings => okResponse ["job"; "instance"]
       | SeriesList => okResponse seriesUp
       | Metadata => okResponse [("up", [mkMetricMetadata "gauge" "Whether the target is up."])]
       | Flags => okResponse [("foo", "bar")]
       end).

Definition internalError : FetchFn :=
  fun _ _ _ =>
    Resolved (mkResponse false 500 "Internal Server Error"
                (Rejected (mkError "Unexpected end of JSON input"))).

Definition boom : FetchFn :=
  fun _ _ _ =>
    Resolved (mkResponse false 400 "Bad Request"
                (Resolved (mkAPIResponse error None (Some "boom") None))).

Definition bareError : FetchFn :=
  fun _ _ _ =>
    Resolved (mkResponse false 422 "Unprocessable Entity"
                (Resolved (mkAPIResponse error None None None))).

Definition noData : FetchFn :=
  fun _ _ _ =>
    Resolved (mkResponse true 200 "OK" (Resolved (mkAPIResponse success None None None))).

Definition sampleClient (m : HTTPMethod) (f : FetchFn) : CustomHTTPPrometheusClient :=
  @newClient samplePlatform
    {| cfg_url := Some "http://thanos";
       cfg_lookbackInterval := None;
       cfg_httpErrorHandler := Some (handler "log");
       cfg_fetchFn := Some f;
       cfg_httpMethod := Some m;
       cfg_apiPrefix := None |}.

Definition world0 : World := mkWorld 0 [].

(** Strategies for concrete runs: one without completions, and one that
    returns [r]. *)
Definition nullStrategy : CompleteStrategy :=
  {| promQL := fun _ => Returns (Resolved None) |}.

Definition fixedStrategy (r : CompletionResult) : CompleteStrategy :=
  {| promQL := fun _ => Returns (Resolved (Some r)) |}.

Definition metricOption (name : string) : Completion :=
  {| label := utf16 name; detail := None; apply := None; info := None;
     type := Some (utf16 "constant"); boost := None |}.

(** Completions of metric names for the text from [start] on. *)
Definition metricsAt (start : nat) : CompletionResult :=
  {| from := start;
     to := None;
     options := [metricOption "up"; metricOption "up_total"];
     validFor := Some (fun _ => true);
     filter := Some false |}.

Definition sampleContext : CompletionContext :=
  {| state := mkState (utf16 "up"); pos := 2 |}.

(** A past query of [n] characters. *)
Definition longQuery (n : nat) : jsstring := repeat 97%N n.

(** The code units that [historyValidFor] accepts. *)
Definition TokenChar (c : N) : Prop :=
  (97 <= c <= 122 \/ 65 <= c <= 90 \/ 48 <= c <= 57 \/ c = 95 \/ c = 58)%N.

(** ** Properties of the metadata client *)

(** The status codes that still carry a JSON body. *)
Definition tolerated (code : Z) : Prop :=
  code = badRequest \/ code = unprocessableEntity \/ code = serviceUnavailable.

(** The failures of a request, by the answer of the transport: the transport
    rejects; the status is not ok and not tolerated; the body is an error
    envelope; the body is a success envelope without data. *)
Inductive Failure {T : Type} : Promise (Response T) -> JsError -> Prop :=
| TransportRejection e :
    Failure (Rejected e) e
| IntolerableStatus res :
    ok res = false -> ~ tolerated (res_status res) ->
    Failure (Resolved res) (mkError (statusText res))
| ErrorEnvelope res apiRes :
    ok res = true \/ tolerated (res_status res) ->
    json res = Resolved apiRes -> status apiRes = error ->
    Failure (Resolved res)
      (mkError (match error_ apiRes with Some m => m | None => missingErrorField end))
| MissingData res apiRes :
    ok res = true \/ tolerated (res_status res) ->
    json res = Resolved apiRes -> status apiRes = success -> data apiRes = None ->
    Failure (Resolved res) (mkError missingDataField).

(** The calls of the error callback that a failure [e] leads to. *)
Definition notification (this : CustomHTTPPrometheusClient) (e : JsError) : list Event :=
  match errorHandler this with
  | Some h => [Notified h e]
  | None => []
  end.



(** ** The rest of the client and its use by the editor *)

(** [Headers.prototype.set], the method of the platform behind [setHeader]. *)
Class HeadersAPI := {
  headersSet : Headers -> string -> string -> Headers
}.

(** [setHeader(headerName, headerValue)]: the client after the call. *)
Definition setHeader `{HeadersAPI} (this : CustomHTTPPrometheusClient)
    (headerName headerValue : string) : CustomHTTPPrometheusClient :=
  {| lookbackInterval := lookbackInterval this;
     url := url this;
     errorHandler := errorHandler this;
     httpMethod := httpMethod this;
     apiPrefix := apiPrefix this;
     fetchFn := fetchFn this;
     requestHeaders := headersSet (requestHeaders this) headerName headerValue |}.

(** The client of [ExpressionInput]:
    [new CustomHTTPPrometheusClient({ url: pathPrefix ? pathPrefix : '', cache: ... })]
    followed by [if (tenant.length > 0) { customClientTwo.setHeader(tenantHeader, tenant); }].
    The constructor does not read [cache]; [pathPrefix] is an optional
    property. *)
Definition customClientTwo `{Platform} `{HeadersAPI} (pathPrefix : option string)
    (tenant tenantHeader : string) : CustomHTTPPrometheusClient :=
  let customClientTwo :=
    newClient
      {| cfg_url := Some (match truthy_string pathPrefix with Some p => p | None => "" end);
         cfg_lookbackInterval := None;
         cfg_httpErrorHandler := None;
         cfg_fetchFn := None;
         cfg_httpMethod := None;
         cfg_apiPrefix := None |} in
  if (0 <? String.length tenant)%nat
  then setHeader customClientTwo tenantHeader tenant
  else customClientTwo.

(** A header store for concrete runs: the entry of the name replaced, or
    added at the end. *)
Definition sampleHeaders : HeadersAPI :=
  {| headersSet := fun hs name value =>
       (List.filter (fun h => negb (String.eqb (fst h) name)) hs ++ [(name, value)])%list |}.

(** The empty value of each type that the transport is asked for: [[]] or
    [{}]. *)
Definition emptyOf (s : Shape) : El s :=
  match s with
  | Strings => []
  | SeriesList => []
  | Metadata => []
  | Flags => []
  end.

(** The answer of the transport carries the data [d]: the status is ok or
    tolerated and the body is a success envelope with [d]. *)
Inductive Success {T : Type} : Promise (Response T) -> T -> Prop :=
| SuccessEnvelope res apiRes d :
    ok res = true \/ tolerated (res_status res) ->
    json res = Resolved apiRes -> status apiRes = success -> data apiRes = Some d ->
    Success (Resolved res) d.

(** The status is ok or tolerated and [res.json()] rejects with [e]. *)
Inductive Unparsable {T : Type} : Promise (Response T) -> JsError -> Prop :=
| UnparsableBody res e :
    ok res = true \/ tolerated (res_status res) ->
    json res = Rejected e ->
    Unparsable (Resolved res) e.

(** An operation is one guarded request at the type [s] followed by the pure
    step [f]: from the world [w] it sends [resource] with [init], which
    carries the headers of the client, and it resolves to [f] of the data on
    success, to [f] of the empty default after a call of the error callback
    otherwise. *)
Definition Via {A : Type} (this : CustomHTTPPrometheusClient) (s : Shape)
    (f : El s -> A) (op : Async A) : Prop :=
  forall w, exists resource init clock,
    headers init = requestHeaders this
    /\ op w
       = match catch_ (fetchAPI this s resource init) (onRejected this (emptyOf s))
                 (mkWorld clock (events w)) with
         | (Resolved d, w') => (Resolved (f d), w')
         | (Rejected e, w') => (Rejected e, w')
         end.

(** An operation sends one request, to a resource under the URL of the
    client and with the headers of the client, and after it does nothing, or
    calls the error callback once. *)
Definition SendsOnce {A : Type} (this : CustomHTTPPrometheusClient) (op : Async A) : Prop :=
  forall w, exists resource init tail,
    events (snd (op w)) = (events w ++ Fetched (url this ++ resource) init :: tail)%list
    /\ headers init = requestHeaders this
    /\ (tail = [] \/ exists h e, errorHandler this = Some h /\ tail = [Notified h e]).

(** An operation is silent: it sends one request, to a resource under the URL
    of the client and with the headers of the client, and that is all. *)
Definition Silent {A : Type} (this : CustomHTTPPrometheusClient) (op : Async A) : Prop :=
  forall w, exists resource init,
    events (snd (op w)) = (events w ++ [Fetched (url this ++ resource) init])%list
    /\ headers init = requestHeaders this.

(** ** The operations when the callback throws or a date is invalid

    The operations above take a call of the error callback to return and the
    dates of the window to be printable. Module [Full] has the same
    operations without these two assumptions: a call of the callback returns
    or throws, as the callback decides, and [toISOString] throws a RangeError
    on an invalid date, so that an operation can also throw, before it
    returns a promise. *)

Class Raises := {
  (** what the call [h(error)] throws, when it does not return *)
  thrownBy : ErrorHandler -> JsError -> option JsError;
  (** the RangeError of [toISOString] on an invalid date *)
  invalidDate : JsError
}.

(** [new Date(t)] is a valid date when [t] is at most 8.64e15 milliseconds away
    from the epoch. *)
Definition maxTime : Z := 8640000000000000.

Definition validTime (t : Z) : bool := ((- maxTime <=? t) && (t <=? maxTime))%Z.

Module Full.
Section Operations.
Context `{Platform} `{Raises}.
Variable this : CustomHTTPPrometheusClient.

(** A call of an operation: it throws, or it returns a promise. *)
Definition Call (A : Type) : Type := World -> Completed (Promise A) * World.

Definition returned {A} (p : Async A) : Call A :=
  fun w => let (q, w') := p w in (Returns q, w').

(** The [catch] callback of the operations:
    [(error) => { if (this.errorHandler) { this.errorHandler(error); } return dflt; }] *)
Definition onRejected {A} (dflt : A) (err : JsError) : Async A :=
  fun w =>
    match errorHandler this with
    | Some h =>
        match thrownBy h err with
        | Some thrown => (Rejected thrown, record (Notified h err) w)
        | None => (Resolved dflt, record (Notified h err) w)
        end
    | None => (Resolved dflt, w)
    end.

(** [series(metricName, matchers, labelName)] *)
Definition series (metricName : string) (matchers : option (list Matcher))
    (labelName : option string) : Call (list LabelSet) :=
  fun w =>
    let (end_, w) := newDate w in
    let start := (end_ - lookbackInterval this)%Z in
    if validTime start && validTime end_ then
      let request :=
        buildRequest this (seriesEndpoint this)
          [("start", toISOString start);
           ("end", toISOString end_);
           ("match[]", labelMatchersToString metricName matchers labelName)] in
      returned
        (catch_
           (fetchAPI this SeriesList (fst request)
              (mkInit (Some (httpMethod this)) (snd request) (requestHeaders this)))
           (onRejected [])) w
    else (Throws invalidDate, w).

(** [this.series(...).then(step)] *)
Definition thenSeries {A} (call : Call (list LabelSet)) (step : list LabelSet -> A)
  : Call A :=
  fun w =>
    match call w with
    | (Throws e, w') => (Throws e, w')
    | (Returns p, w') => returned (series_ <- settled p ;; resolve (step series_)) w'
    end.

(** [labelNames(metricName)] *)
Definition labelNames (metricName : option string) : Call (list string) :=
  fun w =>
    let (end_, w) := newDate w in
    let start := (end_ - lookbackInterval this)%Z in
    let direct :=
      if validTime start && validTime end_ then
        let request :=
          buildRequest this (labelsEndpoint this)
            [("start", toISOString start); ("end", toISOString end_)] in
        returned
          (catch_
             (fetchAPI this Strings (fst request)
                (mkInit (Some (httpMethod this)) (snd request) (requestHeaders this)))
             (onRejected [])) w
      else (Throws invalidDate, w) in
    match metricName with
    | None => direct
    | Some "" => direct
    | Some metricName => thenSeries (series metricName None None) collectNames w
    end.

(** [labelValues(labelName, metricName, matchers)] *)
Definition labelValues (labelName : string) (metricName : option string)
    (matchers : option (list Matcher)) : Call (list string) :=
  fun w =>
    let (end_, w) := newDate w in
    let start := (end_ - lookbackInterval this)%Z in
    let direct :=
      if validTime start && validTime end_ then
        let params : URLSearchParams :=
          [("start", toISOString start); ("end", toISOString end_)] in
        returned
          (catch_
             (fetchAPI this Strings
                (replaceName (labelValuesEndpoint this) labelName
                 ++ "?" ++ paramsToString params)
                (mkInit None None (requestHeaders this)))
             (onRejected [])) w
      else (Throws invalidDate, w) in
    match metricName with
    | None => direct
    | Some "" => direct
    | Some metricName =>
        thenSeries (series metricName matchers (Some labelName)) (collectValues labelName) w
    end.

(** [metricMetadata()] *)
Definition metricMetadata : Call (list (string * list MetricMetadata)) :=
  returned
    (catch_
       (fetchAPI this Metadata (metricMetadataEndpoint this)
          (mkInit None None (requestHeaders this)))
       (onRejected [])).

(** [metricNames()] *)
Definition metricNames : Call (list string) :=
  labelValues "__name__" None None.

(** [flags()] *)
Definition flags : Call (list (string * string)) :=
  returned
    (catch_
       (fetchAPI this Flags (flagsEndpoint this) (mkInit None None (requestHeaders this)))
       (onRejected [])).

(** The window taken at the [k]-th reading of the clock can be printed. *)
Definition InRange (k : nat) : Prop :=
  validTime (wallClock k - lookbackInterval this) = true /\ validTime (wallClock k) = true.

(** What the failure [e] of a request makes of the promise [p] and of the
    events [tail] after the request: the configured callback is called once,
    with [e]; the promise resolves to [dflt] when there is no callback or the
    call returns, and rejects with what the call throws otherwise. *)
Definition Handled {A : Type} (dflt : A) (e : JsError) (p : Promise A)
    (tail : list Event) : Prop :=
  tail = notification this e
  /\ (errorHandler this = None
      \/ (exists h, errorHandler this = Some h /\ thrownBy h e = None) ->
      p = Resolved dflt)
  /\ (forall h thrown, errorHandler this = Some h -> thrownBy h e = Some thrown ->
        p = Rejected thrown).

(** An operation degrades to [dflt] in the worlds that are [ready]: it
    returns a promise after one request, and a failure of that request, at
    the type [s], is handled. *)
Definition Degrades {A : Type} (s : Shape) (op : Call A) (dflt : A)
    (ready : World -> Prop) : Prop :=
  forall w, ready w ->
    exists p input init tail,
      fst (op w) = Returns p
      /\ events (snd (op w)) = (events w ++ Fetched input init :: tail)%list
      /\ forall e, Failure (fetchFn this s input init) e -> Handled dflt e p tail.

(** In the worlds that are [ready] an operation returns a promise after
    exactly one request, to a resource under the URL of the client and with
    the headers of the client, which at most one call of the error callback
    follows; in the other worlds it throws the RangeError of the date and
    sends nothing. *)
Definition SendsOnce {A : Type} (op : Call A) (ready : World -> Prop) : Prop :=
  forall w,
    (ready w ->
       exists p resource init tail,
         fst (op w) = Returns p
         /\ events (snd (op w))
            = (events w ++ Fetched (url this ++ resource) init :: tail)%list
         /\ headers init = requestHeaders this
         /\ (tail = [] \/ exists h e, errorHandler this = Some h /\ tail = [Notified h e]))
    /\ (~ ready w ->
          fst (op w) = Throws invalidDate /\ events (snd (op w)) = events w).

(** In the worlds that are [ready] an operation delivers the data of a
    success through [f], without a call of the error callback, and handles a
    body that cannot be parsed like a failure of the request. *)
Definition Delivers {A : Type} (s : Shape) (f : El s -> A) (dflt : A) (op : Call A)
    (ready : World -> Prop) : Prop :=
  forall w, ready w ->
    exists p input init tail,
      fst (op w) = Returns p
      /\ events (snd (op w)) = (events w ++ Fetched input init :: tail)%list
      /\ (forall d, Success (fetchFn this s input init) d ->
            p = Resolved (f d) /\ tail = [])
      /\ (forall e, Unparsable (fetchFn this s input init) e -> Handled dflt e p tail).

(** An operation is one guarded request at the type [s] followed by the pure
    step [f] in the worlds that are [ready], and the RangeError of the date
    in the others. *)
Definition Via {A : Type} (s : Shape) (f : El s -> A) (op : Call A)
    (ready : World -> Prop) : Prop :=
  forall w,
    (ready w ->
       exists resource init clock,
         headers init = requestHeaders this
         /\ op w
            = match catch_ (fetchAPI this s resource init) (onRejected (emptyOf s))
                      (mkWorld clock (events w)) with
              | (Resolved d, w') => (Returns (Resolved (f d)), w')
              | (Rejected e, w') => (Returns (Rejected e), w')
              end)
    /\ (~ ready w -> exists clock, op w = (Throws invalidDate, mkWorld clock (events w))).

End Operations.
End Full.

(** Callbacks for concrete runs: one that returns, and one that throws. *)
Definition returning : Raises :=
  {| thrownBy := fun _ _ => None; invalidDate := mkError "Invalid time value" |}.

Definition throwing : Raises :=
  {| thrownBy := fun _ _ => Some (mkError "callback failed");
     invalidDate := mkError "Invalid time value" |}.

(** A client whose window starts before the first valid date. *)
Definition farClient : CustomHTTPPrometheusClient :=
  @newClient samplePlatform
    {| cfg_url := Some "http://thanos";
       cfg_lookbackInterval := Some (10 ^ 16)%Z;
       cfg_httpErrorHandler := Some (handler "log");
       cfg_fetchFn := Some healthy;
       cfg_httpMethod := None;
       cfg_apiPrefix := None |}.

(** The distinct elements of a list, in the order of their first
    appearance. *)
Fixpoint firstAppearances (l : list string) : list string :=
  match l with
  | [] => []
  | x :: rest => x :: List.filter (fun y => negb (String.eqb y x)) (firstAppearances rest)
  end.

(** The label names of the records, as they come: record after record and
    entry after entry, [__name__] left out. *)
Definition namesInOrder (records : list LabelSet) : list string :=
  List.filter (fun key => negb (String.eqb key "__name__")) (map fst (concat records)).

(** The values of [labelName] in the records, as they come. *)
Definition valuesInOrder (labelName : string) (records : list LabelSet) : list string :=
  map snd
    (List.filter
       (fun kv => negb (String.eqb (fst kv) "__name__") && String.eqb (fst kv) labelName)
       (concat records)).

Example isoString_epoch : isoString 0 = "1970-01-01T00:00:00.000Z".
Proof. reflexivity. Qed.

Example isoString_2023 : isoString 1700000000000 = "2023-11-14T22:13:20.000Z".
Proof. vm_compute. reflexivity. Qed.

Example isoString_before_epoch : isoString (-1) = "1969-12-31T23:59:59.999Z".
Proof. vm_compute. reflexivity. Qed.

Example formSerialize_selector :
  formSerialize [("start", "2023-11-14T22:13:20.000Z"); ("match[]", "up{job=~" ++ String (ascii_of_nat 34) "a b" ++ String (ascii_of_nat 34) "}")]
  = "start=2023-11-14T22%3A13%3A20.000Z&match%5B%5D=up%7Bjob%3D%7E%22a+b%22%7D".
Proof. vm_compute. reflexivity. Qed.

Example replaceAll_name : replaceAll 0 "job" "/api/v1/label/:name/values" = "/api/v1/label/job/values".
Proof. vm_compute. reflexivity. Qed.

Lemma includes_tolerated (code : Z) :
  includes [badRequest; unprocessableEntity; serviceUnavailable] code = true <-> tolerated code.
Proof.
  unfold includes, tolerated; cbn [existsb].
  rewrite !orb_true_iff, !Z.eqb_eq. intuition congruence.
Qed.

Lemma checkStatus_passes {T} (res : Response T) (w : World) :
  ok res = true \/ tolerated (res_status res) -> checkStatus res w = (Resolved res, w).
Proof.
  intros Hpass. unfold checkStatus.
  destruct (ok res); cbn [negb andb]; [reflexivity|].
  destruct Hpass as [Hok | Htol]; [discriminate|].
  apply includes_tolerated in Htol. rewrite Htol. reflexivity.
Qed.

Lemma checkStatus_fails {T} (res : Response T) (w : World) :
  ok res = false -> ~ tolerated (res_status res) ->
  checkStatus res w = (Rejected (mkError (statusText res)), w).
Proof.
  intros Hok Hnot. unfold checkStatus. rewrite Hok; cbn [negb andb].
  destruct (includes _ (res_status res)) eqn:Hin; [|reflexivity].
  apply includes_tolerated in Hin. contradiction.
Qed.





Section ClientProperties.
Context `{Platform}.
Variable this : CustomHTTPPrometheusClient.

(** The chain of [fetchAPI], one answer of the transport at a time. *)
Lemma fetchAPI_rejected s resource init e w :
  fetchFn this s (url this ++ resource) init = Rejected e ->
  fetchAPI this s resource init w
  = (Rejected e, record (Fetched (url this ++ resource) init) w).
Proof.
  intros Hans. unfold fetchAPI, then_, callFetch. rewrite Hans. reflexivity.
Qed.

Lemma fetchAPI_answered s resource init res w :
  fetchFn this s (url this ++ resource) init = Resolved res ->
  fetchAPI this s resource init w
  = (r <- checkStatus res ;; apiRes <- parseBody r ;; unwrap apiRes)
      (record (Fetched (url this ++ resource) init) w).
Proof.
  intros Hans. unfold fetchAPI, callFetch. unfold then_ at 1. rewrite Hans. reflexivity.
Qed.

Lemma fetchAPI_failure s resource init e w :
  Failure (fetchFn this s (url this ++ resource) init) e ->
  fetchAPI this s resource init w
  = (Rejected e, record (Fetched (url this ++ resource) init) w).
Proof.
  intros Hfail.
  remember (fetchFn this s (url this ++ resource) init) as answer eqn:Hans.
  symmetry in Hans.
  destruct Hfail as [e | res Hok Hnot | res apiRes Hpass Hjson Herr
                     | res apiRes Hpass Hjson Hsucc Hdata].
  - now apply fetchAPI_rejected.
  - rewrite (fetchAPI_answered _ _ _ _ _ Hans). unfold then_ at 1.
    now rewrite checkStatus_fails.
  - rewrite (fetchAPI_answered _ _ _ _ _ Hans). unfold then_ at 1.
    rewrite checkStatus_passes by assumption.
    unfold then_, parseBody, settled. rewrite Hjson.
    unfold unwrap. rewrite Herr. reflexivity.
  - rewrite (fetchAPI_answered _ _ _ _ _ Hans). unfold then_ at 1.
    rewrite checkStatus_passes by assumption.
    unfold then_, parseBody, settled. rewrite Hjson.
    unfold unwrap. rewrite Hsucc, Hdata. reflexivity.
Qed.

(** [fetchAPI] records the request and nothing else. *)
Lemma fetchAPI_world s resource init w :
  snd (fetchAPI this s resource init w) = record (Fetched (url this ++ resource) init) w.
Proof.
  unfold fetchAPI, then_, callFetch.
  destruct (fetchFn this s (url this ++ resource) init) as [res | e]; [|reflexivity].
  unfold checkStatus.
  destruct (negb (ok res) && _); cbn; [reflexivity|].
  unfold parseBody, settled. destruct (json res) as [apiRes | e]; [|reflexivity].
  unfold unwrap. destruct (status apiRes), (data apiRes); reflexivity.
Qed.





(** With a metric name, [labelNames] and [labelValues] are [series] followed by
    a pure step. *)
Lemma labelNames_of_series metricName w :
  metricName <> "" ->
  labelNames this (Some metricName) w
  = (series_ <- series this metricName None None ;; resolve (collectNames series_))
      (snd (newDate w)).
Proof.
  intros Hne. destruct metricName as [|c rest]; [contradiction|reflexivity].
Qed.

Lemma labelValues_of_series labelName metricName matchers w :
  metricName <> "" ->
  labelValues this labelName (Some metricName) matchers w
  = (series_ <- series this metricName matchers (Some labelName) ;;
     resolve (collectValues labelName series_))
      (snd (newDate w)).
Proof.
  intros Hne. destruct metricName as [|c rest]; [contradiction|reflexivity].
Qed.

(** C2. Once the body of the response is parsed as an envelope, [fetchAPI]
    fails with the envelope's error string when the status is [error], and
    with the fixed text [missingErrorField], which is not blank, when that
    string is absent; it fails with the fixed text [missingDataField] when
    the status is [success] and the data is absent; otherwise it returns the
    data. *)
Theorem fetchAPI_envelope s resource init res (apiRes : APIResponse (El s)) w :
  fetchFn this s (url this ++ resource) init = Resolved res ->
  ok res = true \/ tolerated (res_status res) ->
  json res = Resolved apiRes ->
  let outcome := fst (fetchAPI this s resource init w) in
  (status apiRes = error ->
     (forall m, error_ apiRes = Some m -> outcome = Rejected (mkError m))
     /\ (error_ apiRes = None ->
           outcome = Rejected (mkError missingErrorField) /\ missingErrorField <> ""))
  /\ (status apiRes = success -> data apiRes = None ->
        outcome = Rejected (mkError missingDataField))
  /\ (status apiRes = success -> forall d, data apiRes = Some d -> outcome = Resolved d).
Proof.
  intros Hans Hpass Hjson outcome.
  assert (outcome = fst (unwrap apiRes (record (Fetched (url this ++ resource) init) w)))
    as ->.
  { subst outcome. rewrite (fetchAPI_answered _ _ _ _ w Hans). unfold then_ at 1.
    rewrite checkStatus_passes by assumption.
    unfold then_, parseBody, settled. now rewrite Hjson. }
  unfold unwrap. split; [|split].
  - intros Herr. rewrite Herr. split.
    + intros m Hm. now rewrite Hm.
    + intros Hnone. rewrite Hnone. split; [reflexivity | discriminate].
  - intros Hsucc Hdata. now rewrite Hsucc, Hdata.
  - intros Hsucc d Hdata. now rewrite Hsucc, Hdata.
Qed.

(** C3. When the response is not ok and its status is none of 400, 422 and
    503, [fetchAPI] fails with an error that carries the status text; when
    the status is one of the three, it goes on to parse the body as an
    envelope, ok or not. *)
Theorem fetchAPI_status_gate s resource init res w :
  fetchFn this s (url this ++ resource) init = Resolved res ->
  (ok res = false -> ~ tolerated (res_status res) ->
     fetchAPI this s resource init w
     = (Rejected (mkError (statusText res)),
        record (Fetched (url this ++ resource) init) w))
  /\ (tolerated (res_status res) ->
        fetchAPI this s resource init w
        = (apiRes <- parseBody res ;; unwrap apiRes)
            (record (Fetched (url this ++ resource) init) w)).
Proof.
  intros Hans. rewrite (fetchAPI_answered _ _ _ _ w Hans). split.
  - intros Hok Hnot. unfold then_ at 1. now rewrite checkStatus_fails.
  - intros Htol. unfold then_ at 1. now rewrite checkStatus_passes by auto.
Qed.




End ClientProperties.

(** ** Properties of the history strategy *)

Local Open Scope list_scope.

Lemma tokenChar_spec (c : N) : tokenChar c = true <-> TokenChar c.
Proof.
  unfold tokenChar, TokenChar.
  rewrite !orb_true_iff, !andb_true_iff, !N.leb_le, !N.eqb_eq. tauto.
Qed.

Lemma historyValidFor_spec (text : jsstring) :
  historyValidFor text = true <-> text <> [] /\ Forall TokenChar text.
Proof.
  unfold historyValidFor. destruct text as [|c rest].
  - split; [discriminate | intros [[] _]; reflexivity].
  - rewrite forallb_forall, Forall_forall. split.
    + intros Hall. split; [discriminate|].
      intros x Hx. now apply tokenChar_spec, Hall.
    + intros [_ Hall] x Hx. now apply tokenChar_spec, Hall.
Qed.

Section HistoryProperties.
Context `{Editor}.
Variable this : HistoryCompleteStrategy.
Variable context : CompletionContext.

(** At start offset 0 the strategy returns the history options, then the
    options of the wrapped strategy, over the range from 0 to the cursor. *)
Lemma promQL_at_zero res :
  promQL (complete this) context = Returns (Resolved res) ->
  startOffset context res = 0 ->
  history_promQL this context
  = Returns (Resolved (Some
      {| from := 0;
         to := Some (pos context);
         options := map historyItem (queryHistory this)
                    ++ match res with Some r => options r | None => [] end;
         validFor := Some historyValidFor;
         filter := None |})).
Proof.
  intros Hinner Hstart. unfold history_promQL, enrich. rewrite Hinner, Hstart.
  destruct res as [r|]; cbn; [reflexivity|]. now rewrite app_nil_r.
Qed.

Lemma history_option_at res i q :
  promQL (complete this) context = Returns (Resolved res) ->
  startOffset context res = 0 ->
  nth_error (queryHistory this) i = Some q ->
  exists result,
    history_promQL this context = Returns (Resolved (Some result))
    /\ nth_error (options result) i = Some (historyItem q).
Proof.
  intros Hinner Hstart Hq. rewrite (promQL_at_zero res Hinner Hstart).
  eexists. split; [reflexivity|]. cbn [options].
  rewrite nth_error_app1.
  - now rewrite nth_error_map, Hq.
  - rewrite length_map. apply nth_error_Some. now rewrite Hq.
Qed.

(** C5, as the code has it. A past query of exactly 79 characters is returned
    with its label unmodified; a past query of exactly 80 characters, like
    one of 81, is returned with its label equal to the first 76 characters
    followed by three dots and with info equal to the full query. *)
Theorem history_entry_at_the_limit res i q :
  promQL (complete this) context = Returns (Resolved res) ->
  startOffset context res = 0 ->
  nth_error (queryHistory this) i = Some q ->
  exists result item,
    history_promQL this context = Returns (Resolved (Some result))
    /\ nth_error (options result) i = Some item
    /\ (length q = 79 -> label item = q)
    /\ (length q = 80 \/ length q = 81 ->
          label item = firstn 76 q ++ utf16 "..." /\ info item = Some q).
Proof.
  intros Hinner Hstart Hq.
  destruct (history_option_at res i q Hinner Hstart Hq) as (result & Hrun & Hitem).
  exists result, (historyItem q). split; [assumption|]. split; [assumption|].
  unfold historyItem, slice0; cbn [label info]. split.
  - intros ->. reflexivity.
  - intros [-> | ->]; split; reflexivity.
Qed.

(** C6. The option built for a past query has the query itself as label when
    the query is shorter than 80 characters, and its first 76 characters
    followed by three dots otherwise; the text to insert is always the full
    query; info is the full query when the label was cut, and unset
    otherwise. *)
Theorem history_option_fields res i q :
  promQL (complete this) context = Returns (Resolved res) ->
  startOffset context res = 0 ->
  nth_error (queryHistory this) i = Some q ->
  exists result item,
    history_promQL this context = Returns (Resolved (Some result))
    /\ nth_error (options result) i = Some item
    /\ (length q < 80 -> label item = q /\ info item = None)
    /\ (80 <= length q -> label item = firstn 76 q ++ utf16 "..." /\ info item = Some q)
    /\ apply item = Some q.
Proof.
  intros Hinner Hstart Hq.
  destruct (history_option_at res i q Hinner Hstart Hq) as (result & Hrun & Hitem).
  exists result, (historyItem q). split; [assumption|]. split; [assumption|].
  unfold historyItem, slice0; cbn [label info apply].
  destruct (Nat.ltb_spec (length q) 80) as [Hlt | Hge].
  - split; [auto|]. split; [lia | reflexivity].
  - split; [lia|]. split; [auto | reflexivity].
Qed.

(** C8. When the start offset, which is that of the wrapped strategy's result
    when there is one and that of the syntax node at the cursor otherwise, is
    not 0, the strategy returns the result of the wrapped strategy as it is. *)
Theorem nonzero_start_returns_inner res :
  promQL (complete this) context = Returns (Resolved res) ->
  startOffset context res <> 0 ->
  history_promQL this context = Returns (Resolved res).
Proof.
  intros Hinner Hstart. unfold history_promQL, enrich. rewrite Hinner.
  apply Nat.eqb_neq in Hstart. now rewrite Hstart.
Qed.

(** C9. When the wrapped strategy returns a result that starts at offset 0,
    the strategy returns the history options followed by the options of that
    result, each group in its order, over the range from 0 to the cursor and
    with the validity pattern of the history, which accepts the non-empty
    runs of letters, digits, underscores and colons; the end of the range,
    the pattern and the filter flag of the wrapped result are dropped. *)
Theorem zero_start_merges_history r :
  promQL (complete this) context = Returns (Resolved (Some r)) ->
  from r = 0 ->
  exists result,
    history_promQL this context = Returns (Resolved (Some result))
    /\ options result = map historyItem (queryHistory this) ++ options r
    /\ from result = 0
    /\ to result = Some (pos context)
    /\ validFor result = Some historyValidFor
    /\ filter result = None
    /\ forall text, historyValidFor text = true <-> text <> [] /\ Forall TokenChar text.
Proof.
  intros Hinner Hstart.
  rewrite (promQL_at_zero (Some r) Hinner Hstart).
  eexists. split; [reflexivity|]. cbn.
  repeat (split; [reflexivity|]). apply historyValidFor_spec.
Qed.

End HistoryProperties.

(** ** Concrete runs *)

Local Open Scope string_scope.

Example flags_healthy :
  flags (sampleClient POST healthy) world0
  = (Resolved [("foo", "bar")],
     mkWorld 0 [Fetched "http://thanos/api/v1/status/flags" (mkInit None None [])]).
Proof. vm_compute. reflexivity. Qed.

Example flags_boom :
  flags (sampleClient POST boom) world0
  = (Resolved [],
     mkWorld 0 [Fetched "http://thanos/api/v1/status/flags" (mkInit None None []);
                Notified (handler "log") (mkError "boom")]).
Proof. vm_compute. reflexivity. Qed.

Example series_internalError :
  fst (@series samplePlatform (sampleClient GET internalError) "up" None None world0)
  = Resolved []
  /\ events (snd (@series samplePlatform (sampleClient GET internalError) "up" None None world0))
     = [Fetched
          ("http://thanos/api/v1/series?start=2023-11-14T10%3A13%3A20.000Z"
           ++ "&end=2023-11-14T22%3A13%3A20.000Z&match%5B%5D=up")
          (mkInit (Some GET) None []);
        Notified (handler "log") (mkError "Internal Server Error")].
Proof. split; vm_compute; reflexivity. Qed.

Example labelNames_up :
  fst (@labelNames samplePlatform (sampleClient POST healthy) (Some "up") world0)
  = Resolved ["job"; "instance"].
Proof. vm_compute. reflexivity. Qed.

Example labelValues_job :
  fst (@labelValues samplePlatform (sampleClient POST healthy) "job" (Some "up") None world0)
  = Resolved ["api"; "web"].
Proof. vm_compute. reflexivity. Qed.

Example history_without_completions :
  @history_promQL sampleEditor
    (mkHistory nullStrategy [utf16 "up"; utf16 "rate(x[5m])"]) sampleContext
  = Returns (Resolved (Some
      {| from := 0;
         to := Some 2;
         options :=
           [mkCompletion (utf16 "up") (Some (utf16 "past query")) (Some (utf16 "up"))
              None None None;
            mkCompletion (utf16 "rate(x[5m])") (Some (utf16 "past query"))
              (Some (utf16 "rate(x[5m])")) None None None];
         validFor := Some historyValidFor;
         filter := None |})).
Proof. reflexivity. Qed.

Lemma fetchAPI_envelope_witness :
  fst (fetchAPI (sampleClient POST bareError) Flags "/api/v1/status/flags"
         (mkInit None None []) world0)
  = Rejected (mkError missingErrorField)
  /\ missingErrorField <> "".
Proof.
  destruct (fetchAPI_envelope (sampleClient POST bareError) Flags "/api/v1/status/flags"
              (mkInit None None [])
              (mkResponse false 422 "Unprocessable Entity"
                 (Resolved (mkAPIResponse error None None None)))
              (mkAPIResponse error None None None) world0)
    as [Herror _].
  - reflexivity.
  - right. right. left. reflexivity.
  - reflexivity.
  - apply Herror; reflexivity.
Defined.

Lemma fetchAPI_status_gate_witness :
  fetchAPI (sampleClient POST internalError) Flags "/api/v1/status/flags"
    (mkInit None None []) world0
  = (Rejected (mkError "Internal Server Error"),
     mkWorld 0 [Fetched "http://thanos/api/v1/status/flags" (mkInit None None [])]).
Proof.
  destruct (fetchAPI_status_gate (sampleClient POST internalError) Flags
              "/api/v1/status/flags" (mkInit None None [])
              (mkResponse false 500 "Internal Server Error"
                 (Rejected (mkError "Unexpected end of JSON input")))
              world0 eq_refl)
    as [Hgate _].
  apply Hgate.
  - reflexivity.
  - unfold tolerated, badRequest, unprocessableEntity, serviceUnavailable. cbn. lia.
Defined.




(** A past query of exactly 80 characters is not returned under its own
    label. *)
Lemma history_entry_of_80_is_cut :
  let q := longQuery 80 in
  length q = 80
  /\ ~ (exists result item,
          @history_promQL sampleEditor (mkHistory nullStrategy [q]) sampleContext
          = Returns (Resolved (Some result))
          /\ nth_error (options result) 0 = Some item
          /\ label item = q).
Proof.
  split; [reflexivity|].
  intros (result & item & Hrun & Hitem & Hlabel).
  injection Hrun as <-. injection Hitem as <-.
  apply (f_equal (@length N)) in Hlabel. vm_compute in Hlabel. discriminate Hlabel.
Qed.

Lemma history_entry_at_the_limit_witness :
  exists result item,
    @history_promQL sampleEditor (mkHistory nullStrategy [longQuery 80]) sampleContext
    = Returns (Resolved (Some result))
    /\ nth_error (options result) 0 = Some item
    /\ (length (longQuery 80) = 79 -> label item = longQuery 80)
    /\ (length (longQuery 80) = 80 \/ length (longQuery 80) = 81 ->
          label item = (firstn 76 (longQuery 80) ++ utf16 "...")%list
          /\ info item = Some (longQuery 80)).
Proof.
  apply (@history_entry_at_the_limit sampleEditor (mkHistory nullStrategy [longQuery 80])
           sampleContext None 0 (longQuery 80)); reflexivity.
Defined.

Lemma history_option_fields_witness :
  exists result item,
    @history_promQL sampleEditor
      (mkHistory (fixedStrategy (metricsAt 0)) [utf16 "up"; longQuery 100]) sampleContext
    = Returns (Resolved (Some result))
    /\ nth_error (options result) 1 = Some item
    /\ (length (longQuery 100) < 80 -> label item = longQuery 100 /\ info item = None)
    /\ (80 <= length (longQuery 100) ->
          label item = (firstn 76 (longQuery 100) ++ utf16 "...")%list
          /\ info item = Some (longQuery 100))
    /\ apply item = Some (longQuery 100).
Proof.
  apply (@history_option_fields sampleEditor
           (mkHistory (fixedStrategy (metricsAt 0)) [utf16 "up"; longQuery 100])
           sampleContext (Some (metricsAt 0)) 1 (longQuery 100)); reflexivity.
Defined.

Lemma nonzero_start_returns_inner_witness :
  @history_promQL sampleEditor
    (mkHistory (fixedStrategy (metricsAt 5)) [utf16 "up"]) sampleContext
  = Returns (Resolved (Some (metricsAt 5))).
Proof.
  apply (@nonzero_start_returns_inner sampleEditor
           (mkHistory (fixedStrategy (metricsAt 5)) [utf16 "up"]) sampleContext
           (Some (metricsAt 5))).
  - reflexivity.
  - discriminate.
Defined.

Lemma zero_start_merges_history_witness :
  exists result,
    @history_promQL sampleEditor
      (mkHistory (fixedStrategy (metricsAt 0)) [utf16 "up"]) sampleContext
    = Returns (Resolved (Some result))
    /\ options result
       = [historyItem (utf16 "up"); metricOption "up"; metricOption "up_total"]
    /\ to result = Some 2.
Proof.
  destruct (@zero_start_merges_history sampleEditor
              (mkHistory (fixedStrategy (metricsAt 0)) [utf16 "up"]) sampleContext
              (metricsAt 0) eq_refl eq_refl)
    as (result & Hrun & Hoptions & _ & Hto & _).
  exists result. auto.
Defined.


(** ** The operations as one guarded request *)

Section ClientRequests.
Context `{Platform}.
Variable this : CustomHTTPPrometheusClient.

Lemma fetchAPI_success s resource init d w :
  Success (fetchFn this s (url this ++ resource) init) d ->
  fetchAPI this s resource init w
  = (Resolved d, record (Fetched (url this ++ resource) init) w).
Proof.
  intros Hsucc.
  remember (fetchFn this s (url this ++ resource) init) as answer eqn:Hans.
  symmetry in Hans. destruct Hsucc as [res apiRes d Hpass Hjson Hstatus Hdata].
  rewrite (fetchAPI_answered this _ _ _ _ _ Hans). unfold then_ at 1.
  rewrite checkStatus_passes by assumption.
  unfold then_, parseBody, settled. rewrite Hjson.
  unfold unwrap. now rewrite Hstatus, Hdata.
Qed.

Lemma fetchAPI_unparsable s resource init e w :
  Unparsable (fetchFn this s (url this ++ resource) init) e ->
  fetchAPI this s resource init w
  = (Rejected e, record (Fetched (url this ++ resource) init) w).
Proof.
  intros Hbad.
  remember (fetchFn this s (url this ++ resource) init) as answer eqn:Hans.
  symmetry in Hans. destruct Hbad as [res e Hpass Hjson].
  rewrite (fetchAPI_answered this _ _ _ _ _ Hans). unfold then_ at 1.
  rewrite checkStatus_passes by assumption.
  unfold then_, parseBody, settled. now rewrite Hjson.
Qed.

(** Every outcome of a guarded request. *)
Lemma guarded_fetch_outcome s resource init (dflt : El s) w :
  exists v tail,
    catch_ (fetchAPI this s resource init) (onRejected this dflt) w
    = (Resolved v,
       mkWorld (reads w) (events w ++ Fetched (url this ++ resource) init :: tail))
    /\ (tail = [] \/ exists h e, errorHandler this = Some h /\ tail = [Notified h e])
    /\ (forall d, Success (fetchFn this s (url this ++ resource) init) d ->
          v = d /\ tail = [])
    /\ (forall e, Unparsable (fetchFn this s (url this ++ resource) init) e ->
          v = dflt /\ tail = notification this e).
Proof.
  unfold catch_.
  destruct (fetchAPI this s resource init w) as [[v | e0] w'] eqn:Hrun;
    pose proof (fetchAPI_world this s resource init w) as Hw; rewrite Hrun in Hw;
    cbn [snd] in Hw; subst w'.
  - exists v, []. split; [reflexivity|]. split; [now left|]. split.
    + intros d Hd. rewrite (fetchAPI_success _ _ _ _ w Hd) in Hrun.
      injection Hrun as ->. auto.
    + intros e He. rewrite (fetchAPI_unparsable _ _ _ _ w He) in Hrun. discriminate.
  - exists dflt, (notification this e0). split; [|split; [|split]].
    + unfold onRejected, notification, record.
      destruct (errorHandler this); cbn [reads events].
      * now rewrite <- app_assoc.
      * reflexivity.
    + unfold notification. destruct (errorHandler this) as [h|]; [right|now left].
      now exists h, e0.
    + intros d Hd. rewrite (fetchAPI_success _ _ _ _ w Hd) in Hrun. discriminate.
    + intros e He. rewrite (fetchAPI_unparsable _ _ _ _ w He) in Hrun.
      injection Hrun as ->. auto.
Qed.

Lemma settled_pair {A} (run : Promise A * World) :
  run = match run with
        | (Resolved d, w') => (Resolved d, w')
        | (Rejected e, w') => (Rejected e, w')
        end.
Proof. destruct run as [[d | e] w']; reflexivity. Qed.

Lemma series_Via metricName matchers labelName :
  Via this SeriesList (fun d => d) (series this metricName matchers labelName).
Proof.
  intros w.
  eexists _, (mkInit _ _ (requestHeaders this)), (S (reads w)).
  split; [reflexivity|].
  etransitivity; [|apply settled_pair]. reflexivity.
Qed.

Lemma after_series_Via {A} metricName matchers labelName (step : list LabelSet -> A)
    (before : World -> World) :
  (forall w, events (before w) = events w) ->
  Via this SeriesList step
    (fun w => (series_ <- series this metricName matchers labelName ;;
               resolve (step series_)) (before w)).
Proof.
  intros Hbefore w. unfold then_, series, newDate, resolve.
  eexists _, (mkInit _ _ (requestHeaders this)), (S (reads (before w))).
  split; [reflexivity|]. cbn [events reads]. rewrite Hbefore. reflexivity.
Qed.

Lemma labelNames_direct_Via metricName :
  metricName = None \/ metricName = Some "" ->
  Via this Strings (fun d => d) (labelNames this metricName).
Proof.
  intros Hno w.
  eexists _, (mkInit _ _ (requestHeaders this)), (S (reads w)).
  split; [reflexivity|].
  etransitivity; [|apply settled_pair].
  destruct Hno as [-> | ->]; reflexivity.
Qed.

Lemma labelValues_direct_Via labelName metricName matchers :
  metricName = None \/ metricName = Some "" ->
  Via this Strings (fun d => d) (labelValues this labelName metricName matchers).
Proof.
  intros Hno w.
  eexists _, (mkInit _ _ (requestHeaders this)), (S (reads w)).
  split; [reflexivity|].
  etransitivity; [|apply settled_pair].
  destruct Hno as [-> | ->]; reflexivity.
Qed.

Lemma bare_fetch_Via s resource :
  Via this s (fun d => d)
    (catch_ (fetchAPI this s resource (mkInit None None (requestHeaders this)))
       (onRejected this (emptyOf s))).
Proof.
  intros [clock evs].
  eexists resource, (mkInit None None (requestHeaders this)), clock.
  split; [reflexivity|]. apply settled_pair.
Qed.

Lemma metric_cases (metricName : option string) :
  (metricName = None \/ metricName = Some "")
  \/ exists m, metricName = Some m /\ m <> "".
Proof.
  destruct metricName as [m|]; [|now left; left].
  destruct (string_dec m "") as [-> | Hne]; [now left; right|].
  right. now exists m.
Qed.

Lemma labelNames_series_Via metricName :
  metricName <> "" ->
  Via this SeriesList collectNames (labelNames this (Some metricName)).
Proof.
  intros Hne w. rewrite (labelNames_of_series this metricName w Hne).
  apply (after_series_Via metricName None None collectNames (fun w => snd (newDate w))).
  reflexivity.
Qed.

Lemma labelValues_series_Via labelName metricName matchers :
  metricName <> "" ->
  Via this SeriesList (collectValues labelName)
    (labelValues this labelName (Some metricName) matchers).
Proof.
  intros Hne w. rewrite (labelValues_of_series this labelName metricName matchers w Hne).
  apply (after_series_Via metricName matchers (Some labelName) (collectValues labelName)
           (fun w => snd (newDate w))).
  reflexivity.
Qed.

Lemma Via_SendsOnce {A} s (f : El s -> A) (op : Async A) :
  Via this s f op -> SendsOnce this op.
Proof.
  intros Hvia w. destruct (Hvia w) as (resource & init & clock & Hheaders & Hop).
  destruct (guarded_fetch_outcome s resource init (emptyOf s) (mkWorld clock (events w)))
    as (v & tail & Hrun & Htail & _).
  exists resource, init, tail. rewrite Hop, Hrun. cbn [snd events]. auto.
Qed.

Lemma operations_SendsOnce :
  (forall metricName, SendsOnce this (labelNames this metricName))
  /\ (forall labelName metricName matchers,
         SendsOnce this (labelValues this labelName metricName matchers))
  /\ (forall metricName matchers labelName,
         SendsOnce this (series this metricName matchers labelName))
  /\ SendsOnce this (metricMetadata this)
  /\ SendsOnce this (metricNames this)
  /\ SendsOnce this (flags this).
Proof.
  assert (forall labelName metricName matchers,
            SendsOnce this (labelValues this labelName metricName matchers)) as Hvalues.
  { intros labelName metricName matchers.
    destruct (metric_cases metricName) as [Hno | (m & -> & Hne)].
    - exact (Via_SendsOnce _ _ _ (labelValues_direct_Via labelName _ matchers Hno)).
    - exact (Via_SendsOnce _ _ _ (labelValues_series_Via labelName m matchers Hne)). }
  split; [|split; [exact Hvalues|split; [|split; [|split]]]].
  - intros metricName. destruct (metric_cases metricName) as [Hno | (m & -> & Hne)].
    + exact (Via_SendsOnce _ _ _ (labelNames_direct_Via _ Hno)).
    + exact (Via_SendsOnce _ _ _ (labelNames_series_Via m Hne)).
  - intros metricName matchers labelName.
    exact (Via_SendsOnce _ _ _ (series_Via metricName matchers labelName)).
  - exact (Via_SendsOnce _ _ _ (bare_fetch_Via Metadata (metricMetadataEndpoint this))).
  - apply Hvalues.
  - exact (Via_SendsOnce _ _ _ (bare_fetch_Via Flags (flagsEndpoint this))).
Qed.

End ClientRequests.

(** ** The collected sets *)



Section ClientValues.
Context `{Platform}.
Variable this : CustomHTTPPrometheusClient.


End ClientValues.

(** ** The constructor and the client of the editor *)

(** X5. The constructor treats a lookback interval of 0 and an empty API
    prefix as absent: the client it builds never has a zero lookback interval
    or an empty prefix. In their place it uses 12 hours and [/api/v1]; every
    other configured value, a negative interval included, is kept. The
    headers start empty. *)
Theorem newClient_ignores_falsy_settings `{Platform} (config : PrometheusConfig) :
  let this := newClient config in
  lookbackInterval this <> 0%Z
  /\ apiPrefix this <> ""
  /\ (forall n, cfg_lookbackInterval config = Some n -> n <> 0%Z ->
        lookbackInterval this = n)
  /\ (cfg_lookbackInterval config = None \/ cfg_lookbackInterval config = Some 0%Z ->
        lookbackInterval this = 43200000%Z)
  /\ (forall p, cfg_apiPrefix config = Some p -> p <> "" -> apiPrefix this = p)
  /\ (cfg_apiPrefix config = None \/ cfg_apiPrefix config = Some "" ->
        apiPrefix this = "/api/v1")
  /\ requestHeaders this = [].
Proof.
  destruct config as [u l h f m p]; cbn.
  repeat split.
  - destruct l as [[|n|n]|]; cbn; discriminate.
  - destruct p as [[|c rest]|]; cbn; discriminate.
  - intros n [= ->] Hn. destruct n; [contradiction | reflexivity | reflexivity].
  - intros [-> | ->]; reflexivity.
  - intros q [= ->] Hq. destruct q; [contradiction | reflexivity].
  - intros [-> | ->]; reflexivity.
Qed.

Section EditorClient.
Context `{Platform} `{HeadersAPI}.
Variable pathPrefix : option string.
Variables tenant tenantHeader : string.

Lemma customClientTwo_fields :
  let this := customClientTwo pathPrefix tenant tenantHeader in
  errorHandler this = None
  /\ httpMethod this = POST
  /\ (tenant = "" -> requestHeaders this = [])
  /\ (tenant <> "" -> requestHeaders this = headersSet [] tenantHeader tenant).
Proof.
  unfold customClientTwo.
  destruct tenant as [|c rest]; cbn; repeat split; intros Htenant;
    solve [reflexivity | contradiction | discriminate].
Qed.

Lemma SendsOnce_Silent {A} (this : CustomHTTPPrometheusClient) (op : Async A) :
  errorHandler this = None -> SendsOnce this op -> Silent this op.
Proof.
  intros Hnone Hsends w.
  destruct (Hsends w) as (resource & init & tail & Hevents & Hheaders & Htail).
  exists resource, init. split; [|assumption].
  destruct Htail as [-> | (h & e & Hsome & _)]; [assumption|].
  rewrite Hnone in Hsome. discriminate.
Qed.

(** X6. The client that the expression input builds has no error callback
    and uses POST. Every operation on it sends one request, with the tenant
    header when a tenant is given and without headers otherwise, and that is
    all it does: a failed request leaves no trace besides the request. *)
Theorem editor_client_is_silent :
  let this := customClientTwo pathPrefix tenant tenantHeader in
  httpMethod this = POST
  /\ (tenant = "" -> requestHeaders this = [])
  /\ (tenant <> "" -> requestHeaders this = headersSet [] tenantHeader tenant)
  /\ (forall metricName, Silent this (labelNames this metricName))
  /\ (forall labelName metricName matchers,
         Silent this (labelValues this labelName metricName matchers))
  /\ (forall metricName matchers labelName,
         Silent this (series this metricName matchers labelName))
  /\ Silent this (metricMetadata this)
  /\ Silent this (metricNames this)
  /\ Silent this (flags this).
Proof.
  intros this.
  destruct customClientTwo_fields as (Hnone & Hpost & Hempty & Htenant).
  destruct (operations_SendsOnce this)
    as (Hnames & Hvalues & Hseries & Hmeta & Hmetrics & Hflags).
  split; [assumption|]. split; [assumption|]. split; [assumption|].
  split; [intros; now apply SendsOnce_Silent|].
  split; [intros; now apply SendsOnce_Silent|].
  split; [intros; now apply SendsOnce_Silent|].
  split; [now apply SendsOnce_Silent|].
  split; now apply SendsOnce_Silent.
Qed.

End EditorClient.

(** ** More on the history strategy *)

Local Open Scope list_scope.

Lemma historyItem_label_length (q : jsstring) : length (label (historyItem q)) <= 79.
Proof.
  unfold historyItem, slice0; cbn [label].
  destruct (Nat.ltb_spec (length q) 80) as [Hlt | Hge]; [lia|].
  rewrite length_app, firstn_length_le by lia. cbn. lia.
Qed.

Lemma historyItem_label_prefix (q : jsstring) :
  firstn 76 (label (historyItem q)) = firstn 76 q.
Proof.
  unfold historyItem, slice0; cbn [label].
  destruct (Nat.ltb_spec (length q) 80) as [Hlt | Hge]; [reflexivity|].
  rewrite firstn_app, firstn_firstn, firstn_length_le by lia.
  cbn. now rewrite app_nil_r.
Qed.

Lemma historyItem_label_kept (q : jsstring) :
  label (historyItem q) = q <-> length q < 80.
Proof.
  split.
  - intros Hkept. pose proof (historyItem_label_length q) as Hlen.
    rewrite Hkept in Hlen. lia.
  - intros Hlt. unfold historyItem; cbn [label].
    apply Nat.ltb_lt in Hlt. now rewrite Hlt.
Qed.

Section HistoryExtras.
Context `{Editor}.
Variable this : HistoryCompleteStrategy.
Variable context : CompletionContext.

(** X7. The label of a history option never has more than 79 code units and
    always starts with the first 76 code units of the past query; it is the
    past query itself exactly when the query is shorter than 80 code
    units. *)
Theorem history_labels_fit res :
  promQL (complete this) context = Returns (Resolved res) ->
  startOffset context res = 0 ->
  exists result,
    history_promQL this context = Returns (Resolved (Some result))
    /\ forall i q, nth_error (queryHistory this) i = Some q ->
         exists item,
           nth_error (options result) i = Some item
           /\ length (label item) <= 79
           /\ firstn 76 (label item) = firstn 76 q
           /\ (label item = q <-> length q < 80).
Proof.
  intros Hinner Hstart.
  pose proof (promQL_at_zero this context res Hinner Hstart) as Hrun.
  eexists. split; [exact Hrun|]. intros i q Hq.
  destruct (history_option_at this context res i q Hinner Hstart Hq)
    as (result & Hrun' & Hitem).
  rewrite Hrun in Hrun'. injection Hrun' as <-.
  exists (historyItem q). split; [exact Hitem|].
  split; [apply historyItem_label_length|].
  split; [apply historyItem_label_prefix | apply historyItem_label_kept].
Qed.

(** X8. At start offset 0 the past queries are offered in the order of the
    history, one option per entry with repeated entries kept: the first
    options of the result insert exactly the queries of the history, each is
    marked as a past query, and the options of the wrapped strategy follow
    them unchanged. *)
Theorem history_is_offered_in_order res :
  promQL (complete this) context = Returns (Resolved res) ->
  startOffset context res = 0 ->
  exists result,
    history_promQL this context = Returns (Resolved (Some result))
    /\ map apply (firstn (length (queryHistory this)) (options result))
       = map Some (queryHistory this)
    /\ Forall (fun item => detail item = Some (utf16 "past query"))
         (firstn (length (queryHistory this)) (options result))
    /\ skipn (length (queryHistory this)) (options result)
       = match res with Some r => options r | None => [] end.
Proof.
  intros Hinner Hstart.
  eexists. split; [exact (promQL_at_zero this context res Hinner Hstart)|].
  cbn [options].
  assert (length (map historyItem (queryHistory this)) = length (queryHistory this))
    as Hlen by apply length_map.
  rewrite <- Hlen at 1 2 3.
  rewrite firstn_app, Nat.sub_diag, firstn_all, firstn_O, app_nil_r.
  rewrite skipn_app, Nat.sub_diag, skipn_all, skipn_O.
  split; [|split; [|reflexivity]].
  - rewrite map_map. cbn [historyItem apply]. reflexivity.
  - apply Forall_map, Forall_forall. intros q _. reflexivity.
Qed.

(** X9. The strategy has no failure of its own and hides none: it throws
    exactly when the wrapped strategy throws, and rejects exactly when the
    wrapped strategy rejects, with the same error. It resolves to null
    exactly when the wrapped strategy resolves to null and the syntax node at
    the cursor does not start at offset 0. *)
Theorem history_promQL_passes_failures e :
  (history_promQL this context = Throws e <-> promQL (complete this) context = Throws e)
  /\ (history_promQL this context = Returns (Rejected e)
      <-> promQL (complete this) context = Returns (Rejected e))
  /\ (history_promQL this context = Returns (Resolved None)
      <-> promQL (complete this) context = Returns (Resolved None)
          /\ resolveFrom (state context) (pos context) <> 0).
Proof.
  unfold history_promQL, enrich.
  destruct (promQL (complete this) context) as [e0 | [res | e0]].
  - split; [tauto|]. split; [split; discriminate|].
    split; [discriminate | intros [Hinner _]; discriminate].
  - split; [split; discriminate|].
    destruct (Nat.eqb_spec (startOffset context res) 0) as [Hzero | Hnonzero];
      cbn [negb].
    + split; [split; discriminate|]. split; [discriminate|].
      intros [[= ->] Hfrom]. contradiction.
    + split; [split; discriminate|]. split.
      * intros [= ->]. split; [reflexivity | exact Hnonzero].
      * intros [[= ->] _]. reflexivity.
  - split; [split; discriminate|]. split; [tauto|].
    split; [discriminate | intros [Hinner _]; discriminate].
Qed.

End HistoryExtras.

Lemma history_promQL_resolved `{Editor} (this : HistoryCompleteStrategy)
    (context : CompletionContext) (res : option CompletionResult) :
  promQL (complete this) context = Returns (Resolved res) ->
  history_promQL this context = Returns (enrich this context res).
Proof. intros Hinner. unfold history_promQL. now rewrite Hinner. Qed.

Lemma enrich_off_zero `{Editor} (this : HistoryCompleteStrategy)
    (context : CompletionContext) (res : option CompletionResult) :
  startOffset context res <> 0 -> enrich this context res = Resolved res.
Proof.
  intros Hstart. apply Nat.eqb_neq in Hstart. unfold enrich. now rewrite Hstart.
Qed.

(** X10. History strategies compose: a history strategy around a history
    strategy around a base strategy offers, at start offset 0, the past
    queries of the outer one, then those of the inner one, then the options
    of the base strategy, over the range from 0 to the cursor; at any other
    start offset it returns the result of the base strategy as it is. *)
Theorem nested_history_strategies `{Editor} (base : CompleteStrategy)
    (older newer : list jsstring) (context : CompletionContext)
    (res : option CompletionResult) :
  promQL base context = Returns (Resolved res) ->
  let outer := mkHistory (asStrategy (mkHistory base older)) newer in
  (startOffset context res = 0 ->
     exists result,
       history_promQL outer context = Returns (Resolved (Some result))
       /\ options result
          = map historyItem newer ++ map historyItem older
            ++ match res with Some r => options r | None => [] end
       /\ from result = 0
       /\ to result = Some (pos context))
  /\ (startOffset context res <> 0 ->
        history_promQL outer context = Returns (Resolved res)).
Proof.
  intros Hbase outer. split.
  - intros Hstart.
    pose proof (promQL_at_zero (mkHistory base older) context res Hbase Hstart) as Hinner.
    eexists. split.
    + apply (promQL_at_zero outer context _ Hinner). reflexivity.
    + cbn. auto.
  - intros Hstart.
    rewrite (history_promQL_resolved outer context res).
    + now rewrite enrich_off_zero.
    + cbn [outer complete asStrategy promQL].
      rewrite (history_promQL_resolved (mkHistory base older) context res Hbase).
      now rewrite enrich_off_zero.
Qed.

(** ** More concrete runs *)

Local Open Scope string_scope.

Example editor_flags_with_tenant :
  flags (@customClientTwo samplePlatform sampleHeaders (Some "/thanos") "team-a" "THANOS-TENANT")
    world0
  = (Resolved [],
     mkWorld 0 [Fetched "/thanos/api/v1/status/flags"
                  (mkInit None None [("THANOS-TENANT", "team-a")])]).
Proof. vm_compute. reflexivity. Qed.


Lemma editor_client_is_silent_witness :
  exists resource init,
    events (snd (flags (@customClientTwo samplePlatform sampleHeaders None "team-a"
                          "THANOS-TENANT") world0))
    = [Fetched resource init]
    /\ headers init = [("THANOS-TENANT", "team-a")].
Proof.
  destruct (@editor_client_is_silent samplePlatform sampleHeaders None "team-a"
              "THANOS-TENANT")
    as (_ & _ & Htenant & _ & _ & _ & _ & _ & Hflags).
  destruct (Hflags world0) as (resource & init & Hevents & Hheaders).
  exists (url (@customClientTwo samplePlatform sampleHeaders None "team-a" "THANOS-TENANT")
          ++ resource), init.
  split; [exact Hevents|].
  rewrite Hheaders. rewrite Htenant by discriminate. reflexivity.
Defined.

Lemma history_labels_fit_witness :
  exists result,
    @history_promQL sampleEditor (mkHistory nullStrategy [utf16 "up"; longQuery 200])
      sampleContext
    = Returns (Resolved (Some result))
    /\ forall i q, nth_error [utf16 "up"; longQuery 200] i = Some q ->
         exists item,
           nth_error (options result) i = Some item
           /\ (length (label item) <= 79)%nat
           /\ firstn 76 (label item) = firstn 76 q
           /\ (label item = q <-> (length q < 80)%nat).
Proof.
  apply (@history_labels_fit sampleEditor
           (mkHistory nullStrategy [utf16 "up"; longQuery 200]) sampleContext None);
    reflexivity.
Defined.

Lemma history_is_offered_in_order_witness :
  exists result,
    @history_promQL sampleEditor
      (mkHistory (fixedStrategy (metricsAt 0)) [utf16 "up"; utf16 "up"]) sampleContext
    = Returns (Resolved (Some result))
    /\ map apply (firstn 2 (options result)) = [Some (utf16 "up"); Some (utf16 "up")]
    /\ skipn 2 (options result) = [metricOption "up"; metricOption "up_total"].
Proof.
  destruct (@history_is_offered_in_order sampleEditor
              (mkHistory (fixedStrategy (metricsAt 0)) [utf16 "up"; utf16 "up"])
              sampleContext (Some (metricsAt 0)) eq_refl eq_refl)
    as (result & Hrun & Happly & _ & Hrest).
  exists result. auto.
Defined.

Lemma nested_history_strategies_witness :
  exists result,
    @history_promQL sampleEditor
      (mkHistory
         (@asStrategy sampleEditor (mkHistory (fixedStrategy (metricsAt 0)) [utf16 "up"]))
         [utf16 "rate(x[5m])"])
      sampleContext
    = Returns (Resolved (Some result))
    /\ options result
       = [historyItem (utf16 "rate(x[5m])"); historyItem (utf16 "up");
          metricOption "up"; metricOption "up_total"].
Proof.
  destruct (@nested_history_strategies sampleEditor (fixedStrategy (metricsAt 0))
              [utf16 "up"] [utf16 "rate(x[5m])"] sampleContext (Some (metricsAt 0)) eq_refl)
    as [Hzero _].
  destruct (Hzero eq_refl) as (result & Hrun & Hoptions & _).
  exists result. auto.
Defined.

(** ** The operations when the callback throws or a date is invalid *)

Local Open Scope string_scope.

Section FullProperties.
Context `{Platform} `{Raises}.
Variable this : CustomHTTPPrometheusClient.

Lemma inRange_spec (k : nat) :
  Full.InRange this k
  <-> validTime (wallClock k - lookbackInterval this) && validTime (wallClock k) = true.
Proof. unfold Full.InRange. now rewrite andb_true_iff. Qed.

Lemma returned_pair {A} (p : Async A) (w : World) :
  Full.returned p w
  = match p w with
    | (Resolved d, w') => (Returns (Resolved d), w')
    | (Rejected e, w') => (Returns (Rejected e), w')
    end.
Proof. unfold Full.returned. destruct (p w) as [[d | e] w']; reflexivity. Qed.

(** Every outcome of a guarded request. *)
Lemma full_guarded_fetch s resource init (dflt : El s) w :
  exists p tail,
    catch_ (fetchAPI this s resource init) (Full.onRejected this dflt) w
    = (p, mkWorld (reads w) (events w ++ Fetched (url this ++ resource) init :: tail))
    /\ (tail = [] \/ exists h e, errorHandler this = Some h /\ tail = [Notified h e])
    /\ (forall d, fst (fetchAPI this s resource init w) = Resolved d ->
          p = Resolved d /\ tail = [])
    /\ (forall e, fst (fetchAPI this s resource init w) = Rejected e ->
          Full.Handled this dflt e p tail).
Proof.
  unfold catch_.
  destruct (fetchAPI this s resource init w) as [[v | e0] w'] eqn:Hrun;
    pose proof (fetchAPI_world this s resource init w) as Hw; rewrite Hrun in Hw;
    cbn [snd fst] in *; subst w'.
  - exists (Resolved v), []. split; [reflexivity|]. split; [now left|].
    split; [intros d [= ->]; auto | discriminate].
  - unfold Full.onRejected, Full.Handled, notification, record.
    destruct (errorHandler this) as [h|]; cbn [reads events].
    + destruct (thrownBy h e0) as [thrown|] eqn:Hthrown.
      * exists (Rejected thrown), [Notified h e0]. rewrite <- app_assoc.
        split; [reflexivity|]. split; [right; now exists h, e0|].
        split; [discriminate|]. intros e [= <-]. split; [reflexivity|]. split.
        -- intros [Hnone | (h' & [= <-] & Hret)]; [discriminate | congruence].
        -- intros h' thrown' [= <-] Hthrown'. congruence.
      * exists (Resolved dflt), [Notified h e0]. rewrite <- app_assoc.
        split; [reflexivity|]. split; [right; now exists h, e0|].
        split; [discriminate|]. intros e [= <-]. split; [reflexivity|]. split.
        -- reflexivity.
        -- intros h' thrown' [= <-] Hthrown'. congruence.
    + exists (Resolved dflt), []. split; [reflexivity|]. split; [now left|].
      split; [discriminate|]. intros e [= <-]. split; [reflexivity|]. split.
      * reflexivity.
      * discriminate.
Qed.

Lemma full_series_Via metricName matchers labelName :
  Full.Via this SeriesList (fun d => d) (Full.series this metricName matchers labelName)
    (fun w => Full.InRange this (reads w)).
Proof.
  intros w. unfold Full.series, newDate. split; intros Hready.
  - apply inRange_spec in Hready. rewrite Hready.
    eexists _, (mkInit _ _ (requestHeaders this)), (S (reads w)).
    split; [reflexivity|]. apply returned_pair.
  - rewrite inRange_spec in Hready. apply not_true_is_false in Hready. rewrite Hready.
    now exists (S (reads w)).
Qed.

Lemma full_thenSeries_Via {A} metricName matchers labelName (step : list LabelSet -> A)
    (before : World -> World) :
  (forall w, events (before w) = events w) ->
  Full.Via this SeriesList step
    (fun w => Full.thenSeries (Full.series this metricName matchers labelName) step
                (before w))
    (fun w => Full.InRange this (reads (before w))).
Proof.
  intros Hbefore w.
  destruct (full_series_Via metricName matchers labelName (before w)) as [Hgo Hthrow].
  rewrite Hbefore in Hgo, Hthrow. unfold Full.thenSeries. split; intros Hready.
  - destruct (Hgo Hready) as (resource & init & clock & Hheaders & ->).
    exists resource, init, clock. split; [assumption|].
    destruct (catch_ _ _ _) as [[d | e] w']; reflexivity.
  - destruct (Hthrow Hready) as (clock & ->). now exists clock.
Qed.

Lemma full_labelNames_direct_Via metricName :
  metricName = None \/ metricName = Some "" ->
  Full.Via this Strings (fun d => d) (Full.labelNames this metricName)
    (fun w => Full.InRange this (reads w)).
Proof.
  intros Hno w.
  assert (Full.labelNames this metricName w
          = Full.labelNames this None w) as -> by (destruct Hno as [-> | ->]; reflexivity).
  unfold Full.labelNames, newDate. split; intros Hready.
  - apply inRange_spec in Hready. rewrite Hready.
    eexists _, (mkInit _ _ (requestHeaders this)), (S (reads w)).
    split; [reflexivity|]. apply returned_pair.
  - rewrite inRange_spec in Hready. apply not_true_is_false in Hready. rewrite Hready.
    now exists (S (reads w)).
Qed.

Lemma full_labelValues_direct_Via labelName metricName matchers :
  metricName = None \/ metricName = Some "" ->
  Full.Via this Strings (fun d => d) (Full.labelValues this labelName metricName matchers)
    (fun w => Full.InRange this (reads w)).
Proof.
  intros Hno w.
  assert (Full.labelValues this labelName metricName matchers w
          = Full.labelValues this labelName None matchers w) as ->
    by (destruct Hno as [-> | ->]; reflexivity).
  unfold Full.labelValues, newDate. split; intros Hready.
  - apply inRange_spec in Hready. rewrite Hready.
    eexists _, (mkInit _ _ (requestHeaders this)), (S (reads w)).
    split; [reflexivity|]. apply returned_pair.
  - rewrite inRange_spec in Hready. apply not_true_is_false in Hready. rewrite Hready.
    now exists (S (reads w)).
Qed.

Lemma full_labelNames_series_Via metricName :
  metricName <> "" ->
  Full.Via this SeriesList collectNames (Full.labelNames this (Some metricName))
    (fun w => Full.InRange this (S (reads w))).
Proof.
  intros Hne w.
  assert (Full.labelNames this (Some metricName) w
          = Full.thenSeries (Full.series this metricName None None) collectNames
              (snd (newDate w))) as ->
    by (destruct metricName as [|c rest]; [contradiction | reflexivity]).
  apply (full_thenSeries_Via metricName None None collectNames (fun w => snd (newDate w))).
  reflexivity.
Qed.

Lemma full_labelValues_series_Via labelName metricName matchers :
  metricName <> "" ->
  Full.Via this SeriesList (collectValues labelName)
    (Full.labelValues this labelName (Some metricName) matchers)
    (fun w => Full.InRange this (S (reads w))).
Proof.
  intros Hne w.
  assert (Full.labelValues this labelName (Some metricName) matchers w
          = Full.thenSeries (Full.series this metricName matchers (Some labelName))
              (collectValues labelName) (snd (newDate w))) as ->
    by (destruct metricName as [|c rest]; [contradiction | reflexivity]).
  apply (full_thenSeries_Via metricName matchers (Some labelName) (collectValues labelName)
           (fun w => snd (newDate w))).
  reflexivity.
Qed.

Lemma full_bare_fetch_Via s resource :
  Full.Via this s (fun d => d)
    (Full.returned
       (catch_ (fetchAPI this s resource (mkInit None None (requestHeaders this)))
          (Full.onRejected this (emptyOf s))))
    (fun _ => True).
Proof.
  intros [clock evs]. split; [intros _ | intros Hnot; now destruct Hnot].
  exists resource, (mkInit None None (requestHeaders this)), clock.
  split; [reflexivity|]. apply returned_pair.
Qed.

Lemma full_Via_Degrades {A} s (f : El s -> A) (dflt : A) (op : Full.Call A) ready :
  f (emptyOf s) = dflt -> Full.Via this s f op ready -> Full.Degrades this s op dflt ready.
Proof.
  intros Hdflt Hvia w Hready.
  destruct (Hvia w) as [Hgo _].
  destruct (Hgo Hready) as (resource & init & clock & Hheaders & Hop).
  destruct (full_guarded_fetch s resource init (emptyOf s) (mkWorld clock (events w)))
    as (p & tail & Hrun & _ & _ & Hfail).
  rewrite Hop, Hrun.
  exists (match p with Resolved d => Resolved (f d) | Rejected e => Rejected e end),
    (url this ++ resource), init, tail.
  split; [destruct p; reflexivity|]. split; [destruct p; reflexivity|].
  intros e He.
  destruct (Hfail e) as (Htail & Hreturns & Hthrows).
  { now rewrite (fetchAPI_failure this _ _ _ _ _ He). }
  split; [assumption|]. split.
  - intros Hcase. rewrite (Hreturns Hcase). now rewrite Hdflt.
  - intros h thrown Hh Hthrown. now rewrite (Hthrows h thrown Hh Hthrown).
Qed.

Lemma full_Via_SendsOnce {A} s (f : El s -> A) (op : Full.Call A) ready :
  Full.Via this s f op ready -> Full.SendsOnce this op ready.
Proof.
  intros Hvia w. destruct (Hvia w) as [Hgo Hthrow]. split; intros Hready.
  - destruct (Hgo Hready) as (resource & init & clock & Hheaders & Hop).
    destruct (full_guarded_fetch s resource init (emptyOf s) (mkWorld clock (events w)))
      as (p & tail & Hrun & Htail & _).
    rewrite Hop, Hrun.
    exists (match p with Resolved d => Resolved (f d) | Rejected e => Rejected e end),
      resource, init, tail.
    split; [destruct p; reflexivity|]. split; [destruct p; reflexivity|]. auto.
  - destruct (Hthrow Hready) as (clock & ->). split; reflexivity.
Qed.

Lemma full_Via_Delivers {A} s (f : El s -> A) (dflt : A) (op : Full.Call A) ready :
  f (emptyOf s) = dflt -> Full.Via this s f op ready ->
  Full.Delivers this s f dflt op ready.
Proof.
  intros Hdflt Hvia w Hready.
  destruct (Hvia w) as [Hgo _].
  destruct (Hgo Hready) as (resource & init & clock & Hheaders & Hop).
  destruct (full_guarded_fetch s resource init (emptyOf s) (mkWorld clock (events w)))
    as (p & tail & Hrun & _ & Hsucc & Hfail).
  rewrite Hop, Hrun.
  exists (match p with Resolved d => Resolved (f d) | Rejected e => Rejected e end),
    (url this ++ resource), init, tail.
  split; [destruct p; reflexivity|]. split; [destruct p; reflexivity|]. split.
  - intros d Hd. destruct (Hsucc d) as [-> ->]; [|auto].
    now rewrite (fetchAPI_success this _ _ _ _ _ Hd).
  - intros e He.
    destruct (Hfail e) as (Htail & Hreturns & Hthrows).
    { now rewrite (fetchAPI_unparsable this _ _ _ _ _ He). }
    split; [assumption|]. split.
    + intros Hcase. rewrite (Hreturns Hcase). now rewrite Hdflt.
    + intros h thrown Hh Hthrown. now rewrite (Hthrows h thrown Hh Hthrown).
Qed.

(** C1, as the code has it. Take an operation of the client whose window
    can be printed ([metricMetadata] and [flags] have none), and a request of
    it that fails: the transport rejects, or the status is neither ok nor
    400, 422 or 503, or the body is an error envelope or a success envelope
    without data. The operation returns a promise after that one request and
    calls the configured error callback once, with the failure. When no
    callback is configured or the call returns, the promise resolves to the
    empty default; when the call throws, the promise rejects with what was
    thrown. *)
Theorem operations_handle_failures :
  (forall metricName, metricName = None \/ metricName = Some "" ->
      Full.Degrades this Strings (Full.labelNames this metricName) []
        (fun w => Full.InRange this (reads w)))
  /\ (forall metricName, metricName <> "" ->
         Full.Degrades this SeriesList (Full.labelNames this (Some metricName)) []
           (fun w => Full.InRange this (S (reads w))))
  /\ (forall labelName metricName matchers, metricName = None \/ metricName = Some "" ->
         Full.Degrades this Strings (Full.labelValues this labelName metricName matchers) []
           (fun w => Full.InRange this (reads w)))
  /\ (forall labelName metricName matchers, metricName <> "" ->
         Full.Degrades this SeriesList
           (Full.labelValues this labelName (Some metricName) matchers) []
           (fun w => Full.InRange this (S (reads w))))
  /\ (forall metricName matchers labelName,
         Full.Degrades this SeriesList (Full.series this metricName matchers labelName) []
           (fun w => Full.InRange this (reads w)))
  /\ Full.Degrades this Metadata (Full.metricMetadata this) [] (fun _ => True)
  /\ Full.Degrades this Strings (Full.metricNames this) []
       (fun w => Full.InRange this (reads w))
  /\ Full.Degrades this Flags (Full.flags this) [] (fun _ => True).
Proof.
  split; [|split; [|split; [|split; [|split; [|split; [|split]]]]]].
  - intros metricName Hno.
    exact (full_Via_Degrades _ _ _ _ _ eq_refl (full_labelNames_direct_Via _ Hno)).
  - intros metricName Hne.
    exact (full_Via_Degrades _ _ _ _ _ eq_refl (full_labelNames_series_Via _ Hne)).
  - intros labelName metricName matchers Hno.
    exact (full_Via_Degrades _ _ _ _ _ eq_refl
             (full_labelValues_direct_Via labelName _ matchers Hno)).
  - intros labelName metricName matchers Hne.
    exact (full_Via_Degrades _ _ _ _ _ eq_refl
             (full_labelValues_series_Via labelName _ matchers Hne)).
  - intros metricName matchers labelName.
    exact (full_Via_Degrades _ _ _ _ _ eq_refl (full_series_Via metricName matchers labelName)).
  - exact (full_Via_Degrades _ _ _ _ _ eq_refl
             (full_bare_fetch_Via Metadata (metricMetadataEndpoint this))).
  - exact (full_Via_Degrades _ _ _ _ _ eq_refl
             (full_labelValues_direct_Via "__name__" None None (or_introl eq_refl))).
  - exact (full_Via_Degrades _ _ _ _ _ eq_refl
             (full_bare_fetch_Via Flags (flagsEndpoint this))).
Qed.

(** X1. An operation of the client sends nothing at all or exactly one
    request. When its window cannot be printed, because the lookback interval
    puts a date outside the range of valid dates, it throws the RangeError of
    the date before it sends anything. Otherwise it returns a promise after
    exactly one request, to a resource under the URL of the client and with
    the headers of the client, whatever the transport answers; the only thing
    that can follow the request is one call of the configured error
    callback. [metricMetadata] and [flags] take no window and always send
    their request. *)
Theorem operations_send_once_or_throw :
  (forall metricName, metricName = None \/ metricName = Some "" ->
      Full.SendsOnce this (Full.labelNames this metricName)
        (fun w => Full.InRange this (reads w)))
  /\ (forall metricName, metricName <> "" ->
         Full.SendsOnce this (Full.labelNames this (Some metricName))
           (fun w => Full.InRange this (S (reads w))))
  /\ (forall labelName metricName matchers, metricName = None \/ metricName = Some "" ->
         Full.SendsOnce this (Full.labelValues this labelName metricName matchers)
           (fun w => Full.InRange this (reads w)))
  /\ (forall labelName metricName matchers, metricName <> "" ->
         Full.SendsOnce this (Full.labelValues this labelName (Some metricName) matchers)
           (fun w => Full.InRange this (S (reads w))))
  /\ (forall metricName matchers labelName,
         Full.SendsOnce this (Full.series this metricName matchers labelName)
           (fun w => Full.InRange this (reads w)))
  /\ Full.SendsOnce this (Full.metricMetadata this) (fun _ => True)
  /\ Full.SendsOnce this (Full.metricNames this) (fun w => Full.InRange this (reads w))
  /\ Full.SendsOnce this (Full.flags this) (fun _ => True).
Proof.
  split; [|split; [|split; [|split; [|split; [|split; [|split]]]]]].
  - intros metricName Hno.
    exact (full_Via_SendsOnce _ _ _ _ (full_labelNames_direct_Via _ Hno)).
  - intros metricName Hne.
    exact (full_Via_SendsOnce _ _ _ _ (full_labelNames_series_Via _ Hne)).
  - intros labelName metricName matchers Hno.
    exact (full_Via_SendsOnce _ _ _ _ (full_labelValues_direct_Via labelName _ matchers Hno)).
  - intros labelName metricName matchers Hne.
    exact (full_Via_SendsOnce _ _ _ _ (full_labelValues_series_Via labelName _ matchers Hne)).
  - intros metricName matchers labelName.
    exact (full_Via_SendsOnce _ _ _ _ (full_series_Via metricName matchers labelName)).
  - exact (full_Via_SendsOnce _ _ _ _
             (full_bare_fetch_Via Metadata (metricMetadataEndpoint this))).
  - exact (full_Via_SendsOnce _ _ _ _
             (full_labelValues_direct_Via "__name__" None None (or_introl eq_refl))).
  - exact (full_Via_SendsOnce _ _ _ _ (full_bare_fetch_Via Flags (flagsEndpoint this))).
Qed.

(** X2. Take an operation whose window can be printed. When the answer to its
    request has a status that is ok or tolerated and a body that is a success
    envelope with data, the promise resolves to that data ([labelNames] and
    [labelValues] with a metric name: to the keys and the values collected
    from it) and the error callback is not called. When the body of such an
    answer cannot be parsed, the callback is called once, with the error of
    the parser, and the promise resolves to the empty default when there is
    no callback or the call returns, and rejects with what the call throws
    otherwise. *)
Theorem operations_deliver_or_handle :
  (forall metricName, metricName = None \/ metricName = Some "" ->
      Full.Delivers this Strings (fun d => d) [] (Full.labelNames this metricName)
        (fun w => Full.InRange this (reads w)))
  /\ (forall metricName, metricName <> "" ->
         Full.Delivers this SeriesList collectNames []
           (Full.labelNames this (Some metricName))
           (fun w => Full.InRange this (S (reads w))))
  /\ (forall labelName metricName matchers, metricName = None \/ metricName = Some "" ->
         Full.Delivers this Strings (fun d => d) []
           (Full.labelValues this labelName metricName matchers)
           (fun w => Full.InRange this (reads w)))
  /\ (forall labelName metricName matchers, metricName <> "" ->
         Full.Delivers this SeriesList (collectValues labelName) []
           (Full.labelValues this labelName (Some metricName) matchers)
           (fun w => Full.InRange this (S (reads w))))
  /\ (forall metricName matchers labelName,
         Full.Delivers this SeriesList (fun d => d) []
           (Full.series this metricName matchers labelName)
           (fun w => Full.InRange this (reads w)))
  /\ Full.Delivers this Metadata (fun d => d) [] (Full.metricMetadata this) (fun _ => True)
  /\ Full.Delivers this Strings (fun d => d) [] (Full.metricNames this)
       (fun w => Full.InRange this (reads w))
  /\ Full.Delivers this Flags (fun d => d) [] (Full.flags this) (fun _ => True).
Proof.
  split; [|split; [|split; [|split; [|split; [|split; [|split]]]]]].
  - intros metricName Hno.
    exact (full_Via_Delivers _ _ _ _ _ eq_refl (full_labelNames_direct_Via _ Hno)).
  - intros metricName Hne.
    exact (full_Via_Delivers _ _ _ _ _ eq_refl (full_labelNames_series_Via _ Hne)).
  - intros labelName metricName matchers Hno.
    exact (full_Via_Delivers _ _ _ _ _ eq_refl
             (full_labelValues_direct_Via labelName _ matchers Hno)).
  - intros labelName metricName matchers Hne.
    exact (full_Via_Delivers _ _ _ _ _ eq_refl
             (full_labelValues_series_Via labelName _ matchers Hne)).
  - intros metricName matchers labelName.
    exact (full_Via_Delivers _ _ _ _ _ eq_refl (full_series_Via metricName matchers labelName)).
  - exact (full_Via_Delivers _ _ _ _ _ eq_refl
             (full_bare_fetch_Via Metadata (metricMetadataEndpoint this))).
  - exact (full_Via_Delivers _ _ _ _ _ eq_refl
             (full_labelValues_direct_Via "__name__" None None (or_introl eq_refl))).
  - exact (full_Via_Delivers _ _ _ _ _ eq_refl
             (full_bare_fetch_Via Flags (flagsEndpoint this))).
Qed.

End FullProperties.

(** The operations of the first part are those of [Full] when every call of
    the callback returns and the window can be printed. *)
Section Agreement.
Context `{Platform} `{Raises}.
Variable this : CustomHTTPPrometheusClient.
Hypothesis callbacks_return : forall h e, thrownBy h e = None.

Lemma catch_agrees {A} (p : Async A) (dflt : A) (w : World) :
  catch_ p (Full.onRejected this dflt) w = catch_ p (onRejected this dflt) w.
Proof.
  unfold catch_. destruct (p w) as [[a | e] w']; [reflexivity|].
  unfold Full.onRejected, onRejected.
  destruct (errorHandler this) as [h|]; [|reflexivity].
  now rewrite callbacks_return.
Qed.

Lemma returned_agrees {A} (p : Async A) (dflt : A) (w : World) :
  Full.returned (catch_ p (Full.onRejected this dflt)) w
  = (Returns (fst (catch_ p (onRejected this dflt) w)),
     snd (catch_ p (onRejected this dflt) w)).
Proof.
  unfold Full.returned. rewrite catch_agrees.
  now destruct (catch_ p (onRejected this dflt) w).
Qed.

Lemma series_agrees metricName matchers labelName w :
  Full.InRange this (reads w) ->
  Full.series this metricName matchers labelName w
  = (Returns (fst (series this metricName matchers labelName w)),
     snd (series this metricName matchers labelName w)).
Proof.
  intros Hready. apply inRange_spec in Hready.
  unfold Full.series, series, newDate. rewrite Hready. apply returned_agrees.
Qed.

Lemma thenSeries_agrees {A} metricName matchers labelName (step : list LabelSet -> A) w :
  Full.InRange this (reads w) ->
  Full.thenSeries (Full.series this metricName matchers labelName) step w
  = (Returns (fst ((series_ <- series this metricName matchers labelName ;;
                    resolve (step series_)) w)),
     snd ((series_ <- series this metricName matchers labelName ;;
           resolve (step series_)) w)).
Proof.
  intros Hready. unfold Full.thenSeries. rewrite (series_agrees _ _ _ _ Hready).
  unfold then_, Full.returned, settled, resolve.
  now destruct (series this metricName matchers labelName w) as [[records | e] w'].
Qed.

Lemma operations_agree w :
  (forall metricName,
      Full.InRange this (match metricName with
                         | Some (String _ _) => S (reads w)
                         | _ => reads w
                         end) ->
      Full.labelNames this metricName w
      = (Returns (fst (labelNames this metricName w)), snd (labelNames this metricName w)))
  /\ (forall labelName metricName matchers,
         Full.InRange this (match metricName with
                            | Some (String _ _) => S (reads w)
                            | _ => reads w
                            end) ->
         Full.labelValues this labelName metricName matchers w
         = (Returns (fst (labelValues this labelName metricName matchers w)),
            snd (labelValues this labelName metricName matchers w)))
  /\ (forall metricName matchers labelName,
         Full.InRange this (reads w) ->
         Full.series this metricName matchers labelName w
         = (Returns (fst (series this metricName matchers labelName w)),
            snd (series this metricName matchers labelName w)))
  /\ Full.metricMetadata this w
     = (Returns (fst (metricMetadata this w)), snd (metricMetadata this w))
  /\ Full.flags this w = (Returns (fst (flags this w)), snd (flags this w)).
Proof.
  split; [|split; [|split; [|split]]].
  - intros [[|c rest]|] Hready.
    + apply inRange_spec in Hready. unfold Full.labelNames, labelNames, newDate.
      rewrite Hready. apply returned_agrees.
    + apply (thenSeries_agrees (String c rest) None None collectNames (snd (newDate w))
               Hready).
    + apply inRange_spec in Hready. unfold Full.labelNames, labelNames, newDate.
      rewrite Hready. apply returned_agrees.
  - intros labelName [[|c rest]|] matchers Hready.
    + apply inRange_spec in Hready. unfold Full.labelValues, labelValues, newDate.
      rewrite Hready. apply returned_agrees.
    + apply (thenSeries_agrees (String c rest) matchers (Some labelName)
               (collectValues labelName) (snd (newDate w)) Hready).
    + apply inRange_spec in Hready. unfold Full.labelValues, labelValues, newDate.
      rewrite Hready. apply returned_agrees.
  - intros metricName matchers labelName. apply series_agrees.
  - apply returned_agrees.
  - apply returned_agrees.
Qed.

End Agreement.

(** ** The order of the collected sets *)

Local Open Scope list_scope.

Lemma existsb_eqb_In (y : string) (acc : list string) :
  existsb (String.eqb y) acc = true <-> In y acc.
Proof.
  rewrite existsb_exists. split.
  - intros (x & Hx & Heq). apply String.eqb_eq in Heq. now subst.
  - intros Hin. exists y. split; [assumption | apply String.eqb_refl].
Qed.

Lemma set_add_known (a : string) (l : list string) :
  In a l -> set_add string_dec a l = l.
Proof.
  induction l as [|b l IH]; intros Hin; [contradiction|]. cbn [set_add].
  destruct (string_dec a b) as [Heq | Hne]; [reflexivity|].
  destruct Hin as [Hb | Hin]; [congruence|]. now rewrite IH.
Qed.

Lemma set_add_new (a : string) (l : list string) :
  ~ In a l -> set_add string_dec a l = l ++ [a].
Proof.
  induction l as [|b l IH]; intros Hnot; [reflexivity|]. cbn [set_add].
  destruct (string_dec a b) as [Heq | Hne].
  - exfalso. apply Hnot. now left.
  - cbn. rewrite IH; [reflexivity|]. intros Hin. apply Hnot. now right.
Qed.

Lemma filter_twice {A} (f g : A -> bool) (l : list A) :
  List.filter f (List.filter g l) = List.filter (fun y => g y && f y) l.
Proof.
  induction l as [|x l IH]; [reflexivity|]. cbn [List.filter].
  destruct (g x); cbn [List.filter andb]; [destruct (f x)|]; now rewrite IH.
Qed.

(** Adding the elements of [l] one by one to the set [acc]. *)
Lemma fold_set_add (l : list string) : forall acc,
  fold_left (fun acc k => set_add string_dec k acc) l acc
  = acc ++ List.filter (fun y => negb (existsb (String.eqb y) acc)) (firstAppearances l).
Proof.
  induction l as [|x rest IH]; intros acc; cbn [fold_left firstAppearances].
  - now rewrite app_nil_r.
  - rewrite IH. cbn [List.filter]. rewrite filter_twice.
    destruct (existsb (String.eqb x) acc) eqn:Hx; cbn [negb].
    + apply existsb_eqb_In in Hx. rewrite (set_add_known x acc Hx). f_equal.
      apply filter_ext. intros y.
      destruct (String.eqb_spec y x) as [-> | Hne]; cbn [negb andb]; [|reflexivity].
      apply existsb_eqb_In in Hx. now rewrite Hx.
    + assert (~ In x acc) as Hnot
        by (intros Hin; apply existsb_eqb_In in Hin; congruence).
      rewrite (set_add_new x acc Hnot), <- app_assoc. cbn [app]. do 2 f_equal.
      apply filter_ext. intros y. rewrite existsb_app. cbn [existsb].
      rewrite orb_false_r, negb_orb. apply andb_comm.
Qed.

Lemma firstAppearances_from_empty (l : list string) :
  fold_left (fun acc k => set_add string_dec k acc) l [] = firstAppearances l.
Proof.
  rewrite fold_set_add. cbn [app existsb negb].
  induction (firstAppearances l) as [|x rest IH]; [reflexivity|].
  cbn [List.filter]. now rewrite IH.
Qed.

Lemma addNames_as_fold (labelSet : LabelSet) : forall acc,
  addNames acc labelSet
  = fold_left (fun acc k => set_add string_dec k acc) (namesInOrder [labelSet]) acc.
Proof.
  unfold addNames, namesInOrder. cbn [concat]. rewrite app_nil_r.
  induction labelSet as [|[key value] rest IH]; intros acc; [reflexivity|].
  cbn [fold_left map fst List.filter].
  destruct (String.eqb key "__name__"); cbn [negb fold_left]; apply IH.
Qed.

Lemma addValues_as_fold (labelName : string) (labelSet : LabelSet) : forall acc,
  addValues labelName acc labelSet
  = fold_left (fun acc k => set_add string_dec k acc) (valuesInOrder labelName [labelSet])
      acc.
Proof.
  unfold addValues, valuesInOrder. cbn [concat]. rewrite app_nil_r.
  induction labelSet as [|[key value] rest IH]; intros acc; [reflexivity|].
  cbn [fold_left map fst snd List.filter].
  destruct (String.eqb key "__name__"); cbn [negb andb fold_left]; [apply IH|].
  destruct (String.eqb key labelName); cbn [map snd fold_left]; apply IH.
Qed.

(** X4. The label names and the label values are listed in the order of
    their first appearance in the series: [labelNames] collects the keys of
    the records as they come, record after record and entry after entry with
    [__name__] left out, and keeps the first appearance of each;
    [labelValues] does the same with the values of the label. *)
Theorem collected_in_order_of_first_appearance (labelName : string)
    (records : list LabelSet) :
  collectNames records = firstAppearances (namesInOrder records)
  /\ collectValues labelName records = firstAppearances (valuesInOrder labelName records).
Proof.
  split.
  - rewrite <- firstAppearances_from_empty. unfold collectNames. generalize (@nil string).
    induction records as [|r rest IH]; intros acc; [reflexivity|].
    cbn [fold_left]. rewrite IH, addNames_as_fold. unfold namesInOrder.
    cbn [concat]. now rewrite app_nil_r, map_app, filter_app, fold_left_app.
  - rewrite <- firstAppearances_from_empty. unfold collectValues. generalize (@nil string).
    induction records as [|r rest IH]; intros acc; [reflexivity|].
    cbn [fold_left]. rewrite IH, addValues_as_fold. unfold valuesInOrder.
    cbn [concat]. now rewrite app_nil_r, filter_app, map_app, fold_left_app.
Qed.

Example collectNames_seriesUp : collectNames seriesUp = ["job"; "instance"].
Proof. reflexivity. Qed.

(** ** Concrete runs of the full operations *)

Local Open Scope string_scope.

Example full_flags_callback_returns :
  @Full.flags returning (sampleClient POST boom) world0
  = (Returns (Resolved []),
     mkWorld 0 [Fetched "http://thanos/api/v1/status/flags" (mkInit None None []);
                Notified (handler "log") (mkError "boom")]).
Proof. vm_compute. reflexivity. Qed.

Example full_series_out_of_range :
  @Full.series samplePlatform returning farClient "up" None None world0
  = (Throws (mkError "Invalid time value"), mkWorld 1 []).
Proof. vm_compute. reflexivity. Qed.

(** With a callback that throws, [flags] rejects on an error envelope. *)
Lemma throwing_callback_rejects :
  Failure
    (fetchFn (sampleClient POST boom) Flags "http://thanos/api/v1/status/flags"
       (mkInit None None []))
    (mkError "boom")
  /\ @Full.flags throwing (sampleClient POST boom) world0
     = (Returns (Rejected (mkError "callback failed")),
        mkWorld 0 [Fetched "http://thanos/api/v1/status/flags" (mkInit None None []);
                   Notified (handler "log") (mkError "boom")])
  /\ ~ (exists v, fst (@Full.flags throwing (sampleClient POST boom) world0)
                  = Returns (Resolved v)).
Proof.
  split; [|split].
  - exact (ErrorEnvelope
             (mkResponse false 400 "Bad Request"
                (Resolved (mkAPIResponse error None (Some "boom") None)))
             (mkAPIResponse error None (Some "boom") None)
             (or_intror (or_introl eq_refl)) eq_refl eq_refl).
  - vm_compute. reflexivity.
  - intros (v & Hv). vm_compute in Hv. discriminate Hv.
Qed.

Lemma operations_handle_failures_witness :
  fst (@Full.flags returning (sampleClient POST boom) world0) = Returns (Resolved [])
  /\ events (snd (@Full.flags returning (sampleClient POST boom) world0))
     = [Fetched "http://thanos/api/v1/status/flags" (mkInit None None []);
        Notified (handler "log") (mkError "boom")].
Proof.
  destruct (@operations_handle_failures samplePlatform returning (sampleClient POST boom))
    as (_ & _ & _ & _ & _ & _ & _ & Hflags).
  destruct (Hflags world0 I) as (p & input & init & tail & Hp & Hevents & Hfail).
  rewrite Hp, Hevents.
  assert (input = "http://thanos/api/v1/status/flags" /\ init = mkInit None None [])
    as [-> ->].
  { vm_compute in Hevents. injection Hevents as <- <- _. split; reflexivity. }
  destruct (Hfail (mkError "boom")) as (-> & Hreturns & _).
  - exact (ErrorEnvelope
             (mkResponse false 400 "Bad Request"
                (Resolved (mkAPIResponse error None (Some "boom") None)))
             (mkAPIResponse error None (Some "boom") None)
             (or_intror (or_introl eq_refl)) eq_refl eq_refl).
  - rewrite Hreturns; [split; reflexivity|].
    right. exists (handler "log"). split; reflexivity.
Defined.

Lemma operations_send_once_or_throw_witness :
  fst (@Full.series samplePlatform returning farClient "up" None None world0)
  = Throws (mkError "Invalid time value")
  /\ events (snd (@Full.series samplePlatform returning farClient "up" None None world0))
     = [].
Proof.
  destruct (@operations_send_once_or_throw samplePlatform returning farClient)
    as (_ & _ & _ & _ & Hseries & _).
  destruct (Hseries "up" None None world0) as [_ Hthrow].
  apply Hthrow. intros [Hstart _]. vm_compute in Hstart. discriminate Hstart.
Defined.

Lemma operations_deliver_or_handle_witness :
  fst (@Full.labelNames samplePlatform returning (sampleClient POST healthy) (Some "up")
         world0)
  = Returns (Resolved ["job"; "instance"])
  /\ exists input init,
       events (snd (@Full.labelNames samplePlatform returning (sampleClient POST healthy)
                      (Some "up") world0))
       = [Fetched input init].
Proof.
  destruct (@operations_deliver_or_handle samplePlatform returning
              (sampleClient POST healthy))
    as (_ & Hnames & _).
  destruct (Hnames "up" ltac:(discriminate) world0)
    as (p & input & init & tail & Hp & Hevents & Hsuccess & _).
  { split; vm_compute; reflexivity. }
  rewrite Hp, Hevents.
  destruct (Hsuccess seriesUp) as [-> ->].
  - exact (SuccessEnvelope (okResponse seriesUp)
             (mkAPIResponse success (Some seriesUp) None None) seriesUp
             (or_introl eq_refl) eq_refl eq_refl eq_refl).
  - split; [reflexivity|]. now exists input, init.
Defined.
